(** * Little Module Player (littlemodplayer.c / littlemodplayer.h)

    A shallow embedding of the SoundTracker/ProTracker playroutine and the
    properties of its loader, sequencer, channel renderer and mixers.

    Conventions of the embedding:
    - C integers are [Z] with the wrap-around of their type written out
      ([u8], [u16], [u32], [s8], [s16]);
    - the module file is a [blob]: the byte found at each offset from
      [mod_base].  The C code receives a bare pointer and no length, so a
      read at any offset yields whatever the memory holds there;
    - pointers into the module ([sequence], [patterns], [sample]) are byte
      offsets from [mod_base];
    - the arrays [inst[31]] and [cs[4]] are lists updated by index;
    - the host is little-endian (the default branch of the endianness
      macros), so [host_to_LE16] and [host_to_LE32] are the identity. *)

From Stdlib Require Import ZArith Lia Bool Btauto.
From stdpp Require Import base list.
From coqutil Require Import Z.bitblast.

Local Open Scope Z_scope.

(** ** Machine integers *)

Definition u8 (x : Z) : Z := x mod 256.
Definition u16 (x : Z) : Z := x mod 65536.
Definition u32 (x : Z) : Z := x mod 4294967296.

(** Conversion to a signed type keeps the low bits (two's complement). *)
Definition s8 (x : Z) : Z :=
  let y := x mod 256 in if y <? 128 then y else y - 256.
Definition s16 (x : Z) : Z :=
  let y := x mod 65536 in if y <? 32768 then y else y - 65536.

(** C's [!x] and [!!x]. *)
Definition lnot (x : Z) : Z := if x =? 0 then 1 else 0.
Definition lbool (x : Z) : Z := if x =? 0 then 0 else 1.

(** ** Tunables and macros *)

Definition LMP_SAMPLERATE : Z := 44100.
Definition SAMPLES_PER_TICK : Z := LMP_SAMPLERATE / 50.
Definition SAMP_FP_SPLIT : Z := 12.

Definition BS16 (x : Z) : Z :=
  Z.lor (Z.land (Z.shiftr x 8) 0xff) (Z.land (Z.shiftl x 8) 0xff00).
Definition BE_to_host16 (x : Z) : Z := BS16 x.
Definition host_to_LE16 (x : Z) : Z := x.
Definition host_to_LE32 (x : Z) : Z := x.

Definition LMP_OPT_LOOP : Z := 0.
Definition LMP_OPT_SUPPORT_TEMPO : Z := 1.

(** [typedef enum { LMP_MONO, LMP_STEREO_SOFT, LMP_STEREO_HARD } lmp_mix_t].
    A C enum object is an integer; [mix_val] is the value of an enumerator. *)
Inductive lmp_mix_t := LMP_MONO | LMP_STEREO_SOFT | LMP_STEREO_HARD.

Definition mix_val (mx : lmp_mix_t) : Z :=
  match mx with
  | LMP_MONO => 0
  | LMP_STEREO_SOFT => 1
  | LMP_STEREO_HARD => 2
  end.

(** ** The module in memory *)

Definition blob := Z -> Z.

(** A byte slice [l] placed at [mod_base]; [beyond] is what the memory holds
    past the end of the slice. *)
Definition slice_blob (l : list Z) (beyond : blob) : blob :=
  fun off =>
    if (0 <=? off) && (off <? Z.of_nat (length l))
    then nth (Z.to_nat off) l 0
    else beyond off.

Definition zero_blob : blob := fun _ => 0.

Definition load8 (m : blob) (off : Z) : Z := u8 (m off).
Definition load_s8 (m : blob) (off : Z) : Z := s8 (m off).

(** A [uint16_t] / [uint32_t] read by a little-endian host. *)
Definition load16 (m : blob) (off : Z) : Z :=
  Z.lor (load8 m off) (Z.shiftl (load8 m (off + 1)) 8).
Definition load32 (m : blob) (off : Z) : Z :=
  Z.lor (Z.lor (load8 m off) (Z.shiftl (load8 m (off + 1)) 8))
        (Z.lor (Z.shiftl (load8 m (off + 2)) 16)
               (Z.shiftl (load8 m (off + 3)) 24)).

(** ** State (littlemodplayer.h) *)

Record mpsamp_t := Mpsamp {
  i_sample : Z;          (* int8_t *sample, offset from mod_base *)
  i_len : Z;             (* uint16_t *)
  i_repeat_pos : Z;      (* uint16_t *)
  i_repeat_len : Z;      (* uint16_t *)
  i_default_volume : Z   (* uint8_t *)
}.

Record mpschan_t := Mpschan {
  c_on : Z;              (* uint8_t *)
  c_vol : Z;             (* uint8_t *)
  c_inst : Z;            (* uint8_t *)
  c_looping : Z;         (* uint8_t: 0 no loop, 1 loop, 2 looping *)
  c_pitch : Z;           (* uint16_t *)
  c_effect : Z;          (* uint8_t: 0xff = no effect *)
  c_effect_param : Z;    (* uint8_t *)
  c_sample : Z;          (* int8_t *sample, offset from mod_base *)
  c_pos : Z;             (* uint32_t, 20:12 fixed point *)
  c_phaseinc : Z;        (* uint32_t *)
  c_len : Z;             (* uint32_t *)
  c_repeat_pos : Z;      (* uint32_t *)
  c_repeat_end : Z       (* uint32_t *)
}.

Record mps_t := Mps {
  mps_mod_data : blob;
  mps_instruments : Z;
  mps_sequence : Z;
  mps_length : Z;        (* uint8_t *)
  mps_patterns : Z;
  mps_inst : list mpsamp_t;      (* mpsamp_t inst[31] *)
  mps_pos : Z;           (* unsigned int *)
  mps_pos_pattern : Z;   (* unsigned int *)
  mps_speed : Z;
  mps_tick_counter : Z;
  mps_tempo : Z;
  mps_thirtyone : Z;
  mps_song_loop : Z;
  mps_support_tempo : Z;
  mps_stereo : Z;
  mps_cs : list mpschan_t;       (* mpschan_t cs[4] *)
  mps_sample_counter : Z;
  mps_samples_per_tick : Z
}.

#[global] Instance mpsamp_inhabited : Inhabited mpsamp_t :=
  populate (Mpsamp 0 0 0 0 0).
#[global] Instance mpschan_inhabited : Inhabited mpschan_t :=
  populate (Mpschan 0 0 0 0 0 0 0 0 0 0 0 0 0).

(** The shape the C struct gives the two arrays. *)
Definition mps_wf (s : mps_t) : Prop :=
  length (mps_inst s) = 31%nat /\ length (mps_cs s) = 4%nat.

(** *** Field assignments *)

Definition set_c_on v c := Mpschan v (c_vol c) (c_inst c) (c_looping c) (c_pitch c) (c_effect c) (c_effect_param c) (c_sample c) (c_pos c) (c_phaseinc c) (c_len c) (c_repeat_pos c) (c_repeat_end c).
Definition set_c_vol v c := Mpschan (c_on c) v (c_inst c) (c_looping c) (c_pitch c) (c_effect c) (c_effect_param c) (c_sample c) (c_pos c) (c_phaseinc c) (c_len c) (c_repeat_pos c) (c_repeat_end c).
Definition set_c_inst v c := Mpschan (c_on c) (c_vol c) v (c_looping c) (c_pitch c) (c_effect c) (c_effect_param c) (c_sample c) (c_pos c) (c_phaseinc c) (c_len c) (c_repeat_pos c) (c_repeat_end c).
Definition set_c_looping v c := Mpschan (c_on c) (c_vol c) (c_inst c) v (c_pitch c) (c_effect c) (c_effect_param c) (c_sample c) (c_pos c) (c_phaseinc c) (c_len c) (c_repeat_pos c) (c_repeat_end c).
Definition set_c_pitch v c := Mpschan (c_on c) (c_vol c) (c_inst c) (c_looping c) v (c_effect c) (c_effect_param c) (c_sample c) (c_pos c) (c_phaseinc c) (c_len c) (c_repeat_pos c) (c_repeat_end c).
Definition set_c_effect v c := Mpschan (c_on c) (c_vol c) (c_inst c) (c_looping c) (c_pitch c) v (c_effect_param c) (c_sample c) (c_pos c) (c_phaseinc c) (c_len c) (c_repeat_pos c) (c_repeat_end c).
Definition set_c_effect_param v c := Mpschan (c_on c) (c_vol c) (c_inst c) (c_looping c) (c_pitch c) (c_effect c) v (c_sample c) (c_pos c) (c_phaseinc c) (c_len c) (c_repeat_pos c) (c_repeat_end c).
Definition set_c_sample v c := Mpschan (c_on c) (c_vol c) (c_inst c) (c_looping c) (c_pitch c) (c_effect c) (c_effect_param c) v (c_pos c) (c_phaseinc c) (c_len c) (c_repeat_pos c) (c_repeat_end c).
Definition set_c_pos v c := Mpschan (c_on c) (c_vol c) (c_inst c) (c_looping c) (c_pitch c) (c_effect c) (c_effect_param c) (c_sample c) v (c_phaseinc c) (c_len c) (c_repeat_pos c) (c_repeat_end c).
Definition set_c_phaseinc v c := Mpschan (c_on c) (c_vol c) (c_inst c) (c_looping c) (c_pitch c) (c_effect c) (c_effect_param c) (c_sample c) (c_pos c) v (c_len c) (c_repeat_pos c) (c_repeat_end c).
Definition set_c_len v c := Mpschan (c_on c) (c_vol c) (c_inst c) (c_looping c) (c_pitch c) (c_effect c) (c_effect_param c) (c_sample c) (c_pos c) (c_phaseinc c) v (c_repeat_pos c) (c_repeat_end c).
Definition set_c_repeat_pos v c := Mpschan (c_on c) (c_vol c) (c_inst c) (c_looping c) (c_pitch c) (c_effect c) (c_effect_param c) (c_sample c) (c_pos c) (c_phaseinc c) (c_len c) v (c_repeat_end c).
Definition set_c_repeat_end v c := Mpschan (c_on c) (c_vol c) (c_inst c) (c_looping c) (c_pitch c) (c_effect c) (c_effect_param c) (c_sample c) (c_pos c) (c_phaseinc c) (c_len c) (c_repeat_pos c) v.

Definition set_pos v s := Mps (mps_mod_data s) (mps_instruments s) (mps_sequence s) (mps_length s) (mps_patterns s) (mps_inst s) v (mps_pos_pattern s) (mps_speed s) (mps_tick_counter s) (mps_tempo s) (mps_thirtyone s) (mps_song_loop s) (mps_support_tempo s) (mps_stereo s) (mps_cs s) (mps_sample_counter s) (mps_samples_per_tick s).
Definition set_pos_pattern v s := Mps (mps_mod_data s) (mps_instruments s) (mps_sequence s) (mps_length s) (mps_patterns s) (mps_inst s) (mps_pos s) v (mps_speed s) (mps_tick_counter s) (mps_tempo s) (mps_thirtyone s) (mps_song_loop s) (mps_support_tempo s) (mps_stereo s) (mps_cs s) (mps_sample_counter s) (mps_samples_per_tick s).
Definition set_speed v s := Mps (mps_mod_data s) (mps_instruments s) (mps_sequence s) (mps_length s) (mps_patterns s) (mps_inst s) (mps_pos s) (mps_pos_pattern s) v (mps_tick_counter s) (mps_tempo s) (mps_thirtyone s) (mps_song_loop s) (mps_support_tempo s) (mps_stereo s) (mps_cs s) (mps_sample_counter s) (mps_samples_per_tick s).
Definition set_tick_counter v s := Mps (mps_mod_data s) (mps_instruments s) (mps_sequence s) (mps_length s) (mps_patterns s) (mps_inst s) (mps_pos s) (mps_pos_pattern s) (mps_speed s) v (mps_tempo s) (mps_thirtyone s) (mps_song_loop s) (mps_support_tempo s) (mps_stereo s) (mps_cs s) (mps_sample_counter s) (mps_samples_per_tick s).
Definition set_tempo v s := Mps (mps_mod_data s) (mps_instruments s) (mps_sequence s) (mps_length s) (mps_patterns s) (mps_inst s) (mps_pos s) (mps_pos_pattern s) (mps_speed s) (mps_tick_counter s) v (mps_thirtyone s) (mps_song_loop s) (mps_support_tempo s) (mps_stereo s) (mps_cs s) (mps_sample_counter s) (mps_samples_per_tick s).
Definition set_song_loop v s := Mps (mps_mod_data s) (mps_instruments s) (mps_sequence s) (mps_length s) (mps_patterns s) (mps_inst s) (mps_pos s) (mps_pos_pattern s) (mps_speed s) (mps_tick_counter s) (mps_tempo s) (mps_thirtyone s) v (mps_support_tempo s) (mps_stereo s) (mps_cs s) (mps_sample_counter s) (mps_samples_per_tick s).
Definition set_support_tempo v s := Mps (mps_mod_data s) (mps_instruments s) (mps_sequence s) (mps_length s) (mps_patterns s) (mps_inst s) (mps_pos s) (mps_pos_pattern s) (mps_speed s) (mps_tick_counter s) (mps_tempo s) (mps_thirtyone s) (mps_song_loop s) v (mps_stereo s) (mps_cs s) (mps_sample_counter s) (mps_samples_per_tick s).
Definition set_cs v s := Mps (mps_mod_data s) (mps_instruments s) (mps_sequence s) (mps_length s) (mps_patterns s) (mps_inst s) (mps_pos s) (mps_pos_pattern s) (mps_speed s) (mps_tick_counter s) (mps_tempo s) (mps_thirtyone s) (mps_song_loop s) (mps_support_tempo s) (mps_stereo s) v (mps_sample_counter s) (mps_samples_per_tick s).
Definition set_sample_counter v s := Mps (mps_mod_data s) (mps_instruments s) (mps_sequence s) (mps_length s) (mps_patterns s) (mps_inst s) (mps_pos s) (mps_pos_pattern s) (mps_speed s) (mps_tick_counter s) (mps_tempo s) (mps_thirtyone s) (mps_song_loop s) (mps_support_tempo s) (mps_stereo s) (mps_cs s) v (mps_samples_per_tick s).
Definition set_samples_per_tick v s := Mps (mps_mod_data s) (mps_instruments s) (mps_sequence s) (mps_length s) (mps_patterns s) (mps_inst s) (mps_pos s) (mps_pos_pattern s) (mps_speed s) (mps_tick_counter s) (mps_tempo s) (mps_thirtyone s) (mps_song_loop s) (mps_support_tempo s) (mps_stereo s) (mps_cs s) (mps_sample_counter s) v.

(** [mps->cs[chan]] read and written in place. *)
Definition chan_get (s : mps_t) (chan : nat) : mpschan_t := mps_cs s !!! chan.
Definition chan_set (chan : nat) (c : mpschan_t) (s : mps_t) : mps_t :=
  set_cs (<[chan := c]> (mps_cs s)) s.
Definition chan_upd (chan : nat) (f : mpschan_t -> mpschan_t) (s : mps_t) : mps_t :=
  chan_set chan (f (chan_get s chan)) s.

(** [for (int chan = 0; chan < 4; chan++)]. *)
Definition chans : list nat := [0; 1; 2; 3]%nat.
Definition for_chans (body : nat -> mps_t -> mps_t) (s : mps_t) : mps_t :=
  fold_left (fun acc chan => body chan acc) chans s.

(** ** Utilities *)

(** Division by a zero tempo or pitch is undefined in C; [Z.div] gives 0. *)
Definition lmp_samps_from_tempo (tempo : Z) : Z :=
  u32 ((125 * LMP_SAMPLERATE / 50) / tempo).

Definition lmp_pi_from_pitch (pitch : Z) : Z :=
  u32 ((Z.shiftl 1 SAMP_FP_SPLIT * 254 * 14000 / LMP_SAMPLERATE) / pitch).

(** ** Loader *)

(** [strncmp("M.K.", mod_base + off, 4)]: zero exactly when the four bytes
    at [off] are the magic (no byte of the magic is NUL, so the comparison
    runs over all four). *)
Definition magic_MK : list Z := [77; 46; 75; 46].

Definition strncmp_MK (m : blob) (off : Z) : Z :=
  if forallb (fun '(k, ch) => load8 m (off + k) =? ch)
             (combine [0; 1; 2; 3] magic_MK)
  then 0 else 1.

(** Body of the instrument loop: fills [inst[i]] from the 30-byte header
    record [i] and advances [last_sample]. *)
Definition lmp_init_inst (m : blob) (instruments : Z)
    (acc : list mpsamp_t * Z) (i : nat) : list mpsamp_t * Z :=
  let '(insts, last_sample) := acc in
  let instr := instruments + Z.of_nat i * 30 in
  let hw k := load16 m (instr + 2 * k) in
  let e := {| i_sample := last_sample;
              i_len := u16 (BE_to_host16 (hw (10 + 1)) * 2);
              i_default_volume := u8 (Z.land 0x7f (BE_to_host16 (hw (10 + 2))));
              i_repeat_pos := u16 (BE_to_host16 (hw (10 + 3)) * 2);
              i_repeat_len := u16 (BE_to_host16 (hw (10 + 4)) * 2) |} in
  (<[i := e]> insts, last_sample + i_len e).

Definition lmp_init_chan (c : mpschan_t) : mpschan_t :=
  set_c_effect 0xff (set_c_vol 0x40 (set_c_inst 0 (set_c_on 0 c))).

Definition num_instruments (thirtyone : Z) : nat :=
  if thirtyone =? 0 then 15%nat else 31%nat.

(** [lmp_init] fills the caller's struct [mps]; what it does not assign
    ([stereo], the other channel fields, [inst[15..30]] of a 15-instrument
    module) keeps its previous content.  The result is the new struct and
    the returned status. *)
Definition lmp_init (mps : mps_t) (mod_base : blob) : mps_t * Z :=
  let thirtyone := lnot (strncmp_MK mod_base 0x438) in
  let instruments := 0x14 in
  let '(len, sequence, patterns) :=
    if thirtyone =? 0
    then (load8 mod_base 0x1d6, 0x1d8, 0x258)
    else (load8 mod_base 0x3b6, 0x3b8, 0x43c) in
  let max_patt :=
    fold_left (fun mx i => if load8 mod_base (sequence + i) >? mx
                           then load8 mod_base (sequence + i) else mx)
              (seqZ 0 128) 0 in
  let samples_at := patterns + 4 * (256 * (max_patt + 1)) in
  let insts :=
    fst (fold_left (lmp_init_inst mod_base instruments)
                   (seq 0 (num_instruments thirtyone))
                   (mps_inst mps, samples_at)) in
  let cs :=
    fold_left (fun cs i => <[i := lmp_init_chan (cs !!! i)]> cs)
              chans (mps_cs mps) in
  let tempo := 125 in
  let samples_per_tick := lmp_samps_from_tempo tempo in
  ({| mps_mod_data := mod_base;
      mps_instruments := instruments;
      mps_sequence := sequence;
      mps_length := len;
      mps_patterns := patterns;
      mps_inst := insts;
      mps_pos := 0;
      mps_pos_pattern := 0;
      mps_speed := 6;
      mps_tick_counter := 0;
      mps_tempo := tempo;
      mps_thirtyone := thirtyone;
      mps_song_loop := 1;
      mps_support_tempo := 1;
      mps_stereo := mps_stereo mps;
      mps_cs := cs;
      mps_sample_counter := samples_per_tick;
      mps_samples_per_tick := samples_per_tick |}, 0).

(** The end of the sample data the loader has laid out, i.e. the number of
    bytes the module must have for every offset it computed to be inside
    the file. *)
Definition module_extent (s : mps_t) : Z :=
  let last := mps_inst s !!! (num_instruments (mps_thirtyone s) - 1)%nat in
  i_sample last + i_len last.

Definition lmp_set_option (mps : mps_t) (option val : Z) : mps_t :=
  match option with
  | 0 => set_song_loop (lbool val) mps
  | 1 => set_support_tempo (lbool val) mps
  | _ => mps
  end.

Definition lmp_get_length (mps : mps_t) : Z := mps_length mps.

Definition lmp_set_pos (mps : mps_t) (pos : Z) : mps_t :=
  if pos <? mps_length mps
  then set_pos_pattern 0 (set_pos pos mps)
  else mps.

(** ** Sequencer *)

Definition lmp_process_command (mps : mps_t) (chan : nat) (command val : Z)
    : mps_t :=
  match command with
  | 0 => mps
  | 1 | 2 =>
      chan_upd chan (fun c => set_c_effect_param val (set_c_effect command c)) mps
  | 10 =>
      let v := s8 val in
      let vol := c_vol (chan_get mps chan) + v in
      let vol := if vol >? 0x40 then 0x40 else vol in
      let vol := if vol <? 0 then 0 else vol in
      chan_upd chan (set_c_vol (u8 vol)) mps
  | 11 =>
      let mps := set_pos val (set_pos_pattern 0 mps) in
      if val =? 0 then set_pos 0xffffffff mps else mps
  | 12 =>
      let val := if val >? 0x40 then 0x40 else val in
      chan_upd chan (set_c_vol val) mps
  | 13 =>
      let pos := Z.shiftr (Z.land val 0xf0) 4 * 10 + Z.land val 0xf in
      if pos >? 63 then mps
      else set_pos (u32 (mps_pos mps + 1)) (set_pos_pattern pos mps)
  | 15 =>
      let mps :=
        if (val >? 0) && (val <? 0x1f)
        then set_tick_counter val (set_speed val mps)
        else mps in
      if val >=? 0x20 then
        if negb (mps_support_tempo mps =? 0)
        then set_samples_per_tick (lmp_samps_from_tempo val) (set_tempo val mps)
        else mps
      else mps
  | 14 => mps
  | _ => mps
  end.

(** One channel's inter-note effect on a tick between rows. *)
Definition lmp_tick_effect (c : mpschan_t) : mpschan_t :=
  match c_effect c with
  | 1 | 2 =>
      let c :=
        if c_effect c =? 1 then
          let c := set_c_pitch (u16 (c_pitch c - c_effect_param c)) c in
          if c_pitch c <? 113 then set_c_pitch 113 c else c
        else
          let c := set_c_pitch (u16 (c_pitch c + c_effect_param c)) c in
          if c_pitch c >? 856 then set_c_pitch 856 c else c in
      set_c_phaseinc (lmp_pi_from_pitch (c_pitch c)) c
  | _ => c
  end.

(** Fields of the 32-bit pattern word, as [lmp_tick] extracts them. *)
Definition note_val (note : Z) : Z := u8 (Z.shiftr note 24).
Definition note_inst (note : Z) : Z :=
  u8 (Z.lor (Z.land (Z.shiftr note 20) 0xf) (Z.land note 0x10)).
Definition note_freq (note : Z) : Z :=
  u16 (Z.lor (Z.land (u32 (Z.shiftl note 8)) 0xf00)
             (Z.land (Z.shiftr note 8) 0xff)).
Definition note_command (note : Z) : Z := u8 (Z.land (Z.shiftr note 16) 0xf).

(** "Play a note": the body of the [if (freq && inst <= ...)].  The C code
    indexes [inst[31]] without a check; here an index past the array reads
    the default entry. *)
Definition lmp_tick_play (chan : nat) (inst freq : Z) (mps : mps_t) : mps_t :=
  let c := set_c_on 1 (chan_get mps chan) in
  let c :=
    if inst =? 0 then c
    else set_c_vol (i_default_volume (mps_inst mps !!! Z.to_nat (inst - 1)))
                   (set_c_inst (inst - 1) c) in
  let inst := c_inst c in
  let ins := mps_inst mps !!! Z.to_nat inst in
  let c := set_c_sample (i_sample ins) c in
  let c := set_c_pos 0 c in
  let c := set_c_len (u32 (Z.shiftl (i_len ins) SAMP_FP_SPLIT)) c in
  let c :=
    if negb (i_repeat_len ins =? 1 * 2) then
      let c := set_c_looping 1 c in
      let c := set_c_repeat_pos
                 (u32 (Z.shiftl (i_repeat_pos ins) SAMP_FP_SPLIT)) c in
      set_c_repeat_end
        (u32 (Z.shiftl (i_repeat_pos ins + i_repeat_len ins) SAMP_FP_SPLIT)) c
    else set_c_looping 0 c in
  let c := set_c_phaseinc (lmp_pi_from_pitch freq) c in
  let c := set_c_pitch freq c in
  chan_set chan c mps.

(** Body of the per-channel loop of a row tick; [current_frame] is the byte
    offset of the row's first cell. *)
Definition lmp_tick_chan (current_frame : Z) (chan : nat) (mps : mps_t)
    : mps_t :=
  let note :=
    host_to_LE32 (load32 (mps_mod_data mps) (current_frame + 4 * Z.of_nat chan)) in
  let val := note_val note in
  let inst := note_inst note in
  let freq := note_freq note in
  let command := note_command note in
  let mps := chan_upd chan (set_c_effect 0xff) mps in
  let mps :=
    if negb (freq =? 0)
       && (inst <=? (if mps_thirtyone mps =? 0 then 15 else 31))
    then lmp_tick_play chan inst freq mps
    else mps in
  lmp_process_command mps chan command val.

(** "Move onto new frame in the pattern" and the end-of-sequence test that
    close a row tick. *)
Definition lmp_tick_advance (mps : mps_t) : mps_t * Z :=
  let mps :=
    if mps_pos_pattern mps >? 63
    then set_pos_pattern 0 (set_pos (u32 (mps_pos mps + 1)) mps)
    else mps in
  if mps_pos mps >=? mps_length mps then
    let mps := set_pos 0 mps in
    if mps_song_loop mps =? 0 then (mps, 1) else (mps, 0)
  else (mps, 0).

(** Byte offset of [&mps->patterns[256*current_pattern + 4*mps->pos_pattern]]. *)
Definition lmp_tick_frame (mps : mps_t) : Z :=
  let current_pattern :=
    load8 (mps_mod_data mps) (mps_sequence mps + mps_pos mps) in
  mps_patterns mps
  + 4 * u32 (256 * current_pattern + 4 * mps_pos_pattern mps).

(** Returns the new state and "done". *)
Definition lmp_tick (mps : mps_t) : mps_t * Z :=
  if mps_tick_counter mps >? 1 then
    let mps := for_chans (fun chan => chan_upd chan lmp_tick_effect) mps in
    (set_tick_counter (u32 (mps_tick_counter mps - 1)) mps, 0)
  else
    let mps := set_tick_counter (mps_speed mps) mps in
    let current_frame := lmp_tick_frame mps in
    let mps := set_pos_pattern (u32 (mps_pos_pattern mps + 1)) mps in
    let mps := for_chans (lmp_tick_chan current_frame) mps in
    lmp_tick_advance mps.

(** ** Channel renderer *)

(** One channel of [lmp_render_samples]: the new channel state, the value
    stored in [csamp[chan]], and the indices at which the instrument's
    [sample] array was read (in order).  [>>] on a negative [int] is the
    arithmetic shift and [/] truncates towards zero. *)
Definition lmp_render_chan (m : blob) (ch : mpschan_t)
    : mpschan_t * Z * list Z :=
  if c_on ch =? 0 then (ch, s16 0, [])
  else
    let frac := Z.land (c_pos ch) (Z.shiftl 1 SAMP_FP_SPLIT - 1) in
    let nfrac :=
      Z.shiftl 1 SAMP_FP_SPLIT
      - Z.land (c_pos ch) (Z.shiftl 1 SAMP_FP_SPLIT - 1) in
    let ip := Z.shiftr (c_pos ch) SAMP_FP_SPLIT in
    let c1 := load_s8 m (c_sample ch + ip) * 0x100 in
    let second := ip <? Z.shiftr (c_len ch) SAMP_FP_SPLIT in
    let c2 :=
      if second then load_s8 m (c_sample ch + (ip + 1)) * 0x100 else c1 in
    let c := Z.shiftr (c1 * nfrac + c2 * frac) SAMP_FP_SPLIT in
    let c := Z.quot (c * c_vol ch) 64 in
    let ch := set_c_pos (u32 (c_pos ch + c_phaseinc ch)) ch in
    let ch :=
      if (c_looping ch <? 2) && (c_pos ch >? c_len ch) then
        if c_looping ch =? 0 then set_c_on 0 ch else set_c_looping 2 ch
      else ch in
    let ch :=
      if (c_looping ch =? 2) && (c_pos ch >? c_repeat_end ch)
      then set_c_pos (c_repeat_pos ch) ch
      else ch in
    (ch, s16 c, ip :: (if second then [ip + 1] else [])).

(** [csamp] starts as an unassigned local array; every entry is written. *)
Definition lmp_render_samples (mps : mps_t) : mps_t * list Z :=
  fold_left
    (fun '(mps, csamp) chan =>
       let '(ch, v, _) := lmp_render_chan (mps_mod_data mps) (chan_get mps chan) in
       (chan_set chan ch mps, <[chan := v]> csamp))
    chans (mps, [0; 0; 0; 0]).

Definition lmp_check_for_tick (mps : mps_t) : mps_t * Z :=
  let mps := set_sample_counter (u32 (mps_sample_counter mps - 1)) mps in
  if mps_sample_counter mps =? 0 then
    lmp_tick (set_sample_counter (mps_samples_per_tick mps) mps)
  else (mps, 0).

(** ** Mixers *)

(** What one loop iteration stores into [samples], from [csamp]. *)
Definition mix_frame (mx : lmp_mix_t) (csamp : list Z) : list Z :=
  let c0 := csamp !!! 0%nat in
  let c1 := csamp !!! 1%nat in
  let c2 := csamp !!! 2%nat in
  let c3 := csamp !!! 3%nat in
  match mx with
  | LMP_MONO =>
      [s16 (host_to_LE16 (Z.quot (c0 + c1 + c2 + c3) 4))]
  | LMP_STEREO_HARD =>
      [s16 (host_to_LE16 (Z.quot (c0 + c3) 2));
       s16 (host_to_LE16 (Z.quot (c1 + c2) 2))]
  | LMP_STEREO_SOFT =>
      [s16 (host_to_LE16 (Z.quot ((c0 + c3) * 3 + (c1 + c2)) (4 * 2)));
       s16 (host_to_LE16 (Z.quot ((c1 + c2) * 3 + (c0 + c3)) (4 * 2)))]
  end.

(** One iteration of a mixer loop: render, store, clock the tick. *)
Definition lmp_frame (mx : lmp_mix_t) (mps : mps_t) : mps_t * list Z * Z :=
  let '(mps, csamp) := lmp_render_samples mps in
  let '(mps, d) := lmp_check_for_tick mps in
  (mps, mix_frame mx csamp, d).

(** [iters] iterations of the loop; [samples] collects the stores in index
    order and [done] is the running [done |= ...]. *)
Fixpoint lmp_fill_loop (mx : lmp_mix_t) (iters : nat) (mps : mps_t)
    (samples : list Z) (done : Z) : mps_t * list Z * Z :=
  match iters with
  | O => (mps, samples, done)
  | S k =>
      let '(mps, out, d) := lmp_frame mx mps in
      lmp_fill_loop mx k mps (samples ++ out) (Z.lor done d)
  end.

(** Iterations of [for (i = 0; i < sample_buffer_size; i++)] when the body
    leaves [i] alone (mono) or increments it once more (stereo).  In the
    stereo loops an odd size makes the last iteration store one sample past
    [sample_buffer_size] (and the size [UINT_MAX] never ends the loop; the
    count below is for sizes under it). *)
Definition loop_iters (mx : lmp_mix_t) (sample_buffer_size : Z) : nat :=
  match mx with
  | LMP_MONO => Z.to_nat sample_buffer_size
  | _ => Z.to_nat ((sample_buffer_size + 1) / 2)
  end.

Definition lmp_fill_buffer_mix (mx : lmp_mix_t) (mps : mps_t)
    (sample_buffer_size : Z) : mps_t * list Z * Z :=
  let '(mps, samples, done) :=
    lmp_fill_loop mx (loop_iters mx sample_buffer_size) mps [] 0 in
  (mps, samples, lnot done).

Definition lmp_fill_buffer_mono := lmp_fill_buffer_mix LMP_MONO.
Definition lmp_fill_buffer_stereo_hard := lmp_fill_buffer_mix LMP_STEREO_HARD.
Definition lmp_fill_buffer_stereo_soft := lmp_fill_buffer_mix LMP_STEREO_SOFT.

(** The dispatcher of the header; [mix_type] is the integer held by the
    enum argument.  The state, the samples stored and the returned value. *)
Definition lmp_fill_buffer (mps : mps_t) (sample_buffer_size : Z)
    (mix_type : Z) : mps_t * list Z * Z :=
  if mix_type =? mix_val LMP_MONO
  then lmp_fill_buffer_mono mps sample_buffer_size
  else if mix_type =? mix_val LMP_STEREO_HARD
  then lmp_fill_buffer_stereo_hard mps sample_buffer_size
  else if mix_type =? mix_val LMP_STEREO_SOFT
  then lmp_fill_buffer_stereo_soft mps sample_buffer_size
  else (mps, [], -1).

(** ** A client: a sequence of API calls on one player *)

Inductive lmp_call :=
| FillBuffer (sample_buffer_size : Z) (mix_type : lmp_mix_t)
| SetOption (option val : Z)
| SetPos (pos : Z).

Definition lmp_do (s : mps_t) (c : lmp_call) : mps_t :=
  match c with
  | FillBuffer n mx => fst (fst (lmp_fill_buffer s n (mix_val mx)))
  | SetOption o v => lmp_set_option s o v
  | SetPos p => lmp_set_pos s p
  end.

Definition lmp_run (s : mps_t) (calls : list lmp_call) : mps_t :=
  fold_left lmp_do calls s.

(** ** Concrete modules used as test inputs *)

(** A zeroed player struct, as a caller would declare it before [lmp_init]. *)
Definition mps_blank : mps_t :=
  Mps zero_blob 0 0 0 0 (replicate 31 inhabitant) 0 0 0 0 0 0 0 0 0
      (replicate 4 inhabitant) 0 0.

(** [size] zero bytes with the listed offsets overwritten.  In a
    15-instrument file the song length is at 0x1d6, the sequence at 0x1d8,
    the first pattern at 0x258 and instrument header [i] at [0x14 + 30 * i]
    (length halfword at +22, volume byte at +25, repeat length at +28). *)
Definition patch_bytes (size : nat) (ps : list (Z * Z)) : list Z :=
  fold_left (fun l p => <[Z.to_nat (fst p) := snd p]> l) ps (replicate size 0).

(** A module file loaded at [mod_base], the memory after it reading 0. *)
Definition file_blob (bytes : list Z) : blob := slice_blob bytes zero_blob.

(** Player state after [lmp_init] on a file and the given calls. *)
Definition play (bytes : list Z) (calls : list lmp_call) : mps_t :=
  lmp_run (fst (lmp_init mps_blank (file_blob bytes))) calls.

(** 15-instrument file, one pattern, song length 1.  Row 0, channel 0:
    period 254, instrument 1, no effect.  Instrument 1 is two bytes long
    (one halfword), volume 64, not looping; its data are the last two bytes
    of the file. *)
Definition mod_short_sample : list Z :=
  patch_bytes 1626
    [(0x1d6, 1); (0x14 + 23, 1); (0x14 + 25, 64); (0x14 + 29, 1);
     (0x258, 0); (0x258 + 1, 254); (0x258 + 2, 16); (0x258 + 3, 0);
     (0x258 + 1024, 100); (0x258 + 1025, 50)].

(** Same layout; row 0, channel 0: period 113, instrument 1, effect 1
    (portamento up) with parameter 0xFF. *)
Definition mod_porta_up : list Z :=
  patch_bytes 1626
    [(0x1d6, 1); (0x14 + 23, 1); (0x14 + 25, 64); (0x14 + 29, 1);
     (0x258, 0); (0x258 + 1, 113); (0x258 + 2, 17); (0x258 + 3, 255)].

(** Same layout; instrument 1 has volume byte 0x7F. *)
Definition mod_loud : list Z :=
  patch_bytes 1626
    [(0x1d6, 1); (0x14 + 23, 1); (0x14 + 25, 127); (0x14 + 29, 1);
     (0x258, 0); (0x258 + 1, 254); (0x258 + 2, 16); (0x258 + 3, 0)].


(** 15-instrument file, one pattern, song length 1, no instruments.
    Row 0, channel 0: effect 15 (set speed) with parameter 0x1F. *)
Definition mod_speed_0x1f : list Z :=
  patch_bytes 1624 [(0x1d6, 1); (0x258 + 2, 15); (0x258 + 3, 31)].


(** * Notions used in the statements *)

(** ** Output and frames of a client *)

(** Samples stored by the calls of a client, in order. *)
Definition call_samples (s : mps_t) (c : lmp_call) : list Z :=
  match c with
  | FillBuffer n mx => snd (fst (lmp_fill_buffer s n (mix_val mx)))
  | _ => []
  end.

Fixpoint lmp_output (s : mps_t) (calls : list lmp_call) : list Z :=
  match calls with
  | [] => []
  | c :: rest => call_samples s c ++ lmp_output (lmp_do s c) rest
  end.

(** Mixer loop iterations (output frames) of the calls of a client. *)
Definition call_frames (c : lmp_call) : nat :=
  match c with
  | FillBuffer n mx => loop_iters mx n
  | _ => 0%nat
  end.

Definition total_frames (calls : list lmp_call) : nat :=
  foldr (fun c acc => (call_frames c + acc)%nat) 0%nat calls.


(** ** The lead-in after [lmp_init] *)

(** No channel has a voice playing. *)
Definition all_off (s : mps_t) : Prop :=
  Forall (fun c => c_on c = 0) (mps_cs s).

(** [k] frames into the lead-in: nothing has been sequenced yet. *)
Definition quiet (k : Z) (s : mps_t) : Prop :=
  length (mps_cs s) = 4%nat /\ all_off s /\
  mps_tick_counter s = 0 /\ mps_pos_pattern s = 0 /\
  mps_samples_per_tick s = 882 /\ mps_sample_counter s = 882 - k /\
  0 <= k < 882.

(** ** Rendering, channel by channel *)

(** The state part of [lmp_render_samples], one channel at a time. *)
Definition render_state (chan : nat) (s : mps_t) : mps_t :=
  chan_set chan
    (fst (fst (lmp_render_chan (mps_mod_data s) (chan_get s chan)))) s.

(** ** Volumes *)

Definition vol_ok (V : Z) (c : mpschan_t) : Prop := 0 <= c_vol c <= V.

(** The channels' volumes and the loaded instruments' default volumes are
    within [0, V]. *)
Definition vols_within (V : Z) (s : mps_t) : Prop :=
  length (mps_cs s) = 4%nat /\
  Forall (vol_ok V) (mps_cs s) /\
  forall i, (i < num_instruments (mps_thirtyone s))%nat ->
            0 <= i_default_volume (mps_inst s !!! i) <= V.

(** The volume field of instrument header [i] of the file: the byte at
    offset 25 of the 30-byte record, masked to its low seven bits. *)
Definition header_volume (m : blob) (i : nat) : Z :=
  Z.land (load8 m (20 + 30 * Z.of_nat i + 25)) 127.

(** Number of instrument headers the loader reads: 31 with the magic. *)
Definition module_instruments (m : blob) : nat :=
  num_instruments (lnot (strncmp_MK m 1080)).

(** ** The song and the sequencer's clocks *)

(** What the player never changes after [lmp_init] and [lmp_set_option]. *)
Definition song (s : mps_t) :=
  (mps_mod_data s, mps_sequence s, mps_patterns s, mps_length s,
   mps_song_loop s, mps_support_tempo s).

(** The sequencer's cursor and clocks. *)
Definition clocks (s : mps_t) :=
  (mps_pos s, mps_pos_pattern s, mps_speed s, mps_tick_counter s,
   mps_samples_per_tick s, mps_sample_counter s).

(** Byte offset of the cell at sequence position [pos], row [row], channel
    [chan], and the effect number it holds. *)
Definition cell_offset (s : mps_t) (pos row : Z) (chan : nat) : Z :=
  mps_patterns s
  + 4 * (256 * load8 (mps_mod_data s) (mps_sequence s + pos) + 4 * row)
  + 4 * Z.of_nat chan.

Definition cell_command (s : mps_t) (pos row : Z) (chan : nat) : Z :=
  note_command (host_to_LE32 (load32 (mps_mod_data s) (cell_offset s pos row chan))).


(** Bound on [samples_per_tick] over the tempos effect 15 can set. *)
Definition SPT_MAX : Z := 3445.

(** How one effect command moves the cursor and the clocks. *)
Definition command_step (command : Z) (s s' : mps_t) : Prop :=
  song s' = song s /\
  mps_sample_counter s' = mps_sample_counter s /\
  ((mps_pos s' = mps_pos s /\ mps_pos_pattern s' = mps_pos_pattern s) \/
   (mps_pos s' = u32 (mps_pos s + 1) /\ 0 <= mps_pos_pattern s' <= 63) \/
   (command = 11 /\ 0 <= mps_pos s' < 4294967296 /\ mps_pos_pattern s' = 0)) /\
  ((mps_speed s' = mps_speed s /\ mps_tick_counter s' = mps_tick_counter s) \/
   (1 <= mps_speed s' <= 30 /\ mps_tick_counter s' = mps_speed s')) /\
  (mps_samples_per_tick s' = mps_samples_per_tick s \/
   1 <= mps_samples_per_tick s' <= SPT_MAX).





(** ** A module that jumps forward for ever *)


(** ** Further notions: layout, invariants, voices *)

(** The module carries the 31-instrument magic at 0x438. *)
Definition has_magic (m : blob) : Prop :=
  load8 m 0x438 = 77 /\ load8 m 0x439 = 46 /\
  load8 m 0x43a = 75 /\ load8 m 0x43b = 46.

(** The length field of instrument header [i] of the file: the big-endian
    halfword at offset 22 of the 30-byte record. *)
Definition header_length (m : blob) (i : nat) : Z :=
  256 * load8 m (20 + 30 * Z.of_nat i + 22) + load8 m (20 + 30 * Z.of_nat i + 23).

(** A value that a signed 16-bit sample holds without wrapping. *)
Definition in_s16 (x : Z) : Prop := -32768 <= x <= 32767.

(** What every reachable player state satisfies: the cursor is inside the
    song and the clocks are inside their ranges. *)
Definition player_inv (s : mps_t) : Prop :=
  0 <= mps_length s < 256 /\
  (0 <= mps_pos s < mps_length s \/ mps_pos s = 0) /\
  0 <= mps_pos_pattern s <= 63 /\
  1 <= mps_speed s <= 30 /\
  0 <= mps_tick_counter s <= 30 /\
  1 <= mps_samples_per_tick s <= SPT_MAX /\
  1 <= mps_sample_counter s <= SPT_MAX.

(** Arguments a caller can pass: [pos] is an [unsigned int]. *)
Definition call_ok (c : lmp_call) : Prop :=
  match c with
  | SetPos p => 0 <= p < 4294967296
  | _ => True
  end.

(** Bounds on the cursor and the clocks while the channels of a row are
    processed, relative to the state [s0] in which the row started. *)
Definition row_bounds (s0 s' : mps_t) : Prop :=
  song s' = song s0 /\
  mps_sample_counter s' = mps_sample_counter s0 /\
  0 <= mps_pos s' < 4294967296 /\
  0 <= mps_pos_pattern s' <= 64 /\
  1 <= mps_speed s' <= 30 /\
  1 <= mps_tick_counter s' <= 30 /\
  1 <= mps_samples_per_tick s' <= SPT_MAX.

(** One channel rendered for [k] consecutive output frames. *)
Definition render_frames (m : blob) (k : nat) (ch : mpschan_t) : mpschan_t :=
  Nat.iter k (fun c => fst (fst (lmp_render_chan m c))) ch.



(** The call sets option [o]. *)
Definition sets_option (o : Z) (c : lmp_call) : bool :=
  match c with
  | SetOption o' _ => o' =? o
  | _ => false
  end.

(** The tempo and what follows from it. *)
Definition tempo_state (s : mps_t) :=
  (mps_support_tempo s, mps_tempo s, mps_samples_per_tick s).


(** A 15-instrument module of two positions whose patterns are empty. *)
Definition two_position_blob : blob := fun off => if off =? 0x1d6 then 2 else 0.


(** A 15-instrument module of one position whose first cell of pattern 0
    plays period 428 with instrument 1 and no effect. *)
Definition one_note_blob : blob :=
  fun off =>
    if off =? 0x1d6 then 1
    else if off =? 0x258 then 0x01
    else if off =? 0x259 then 0xac
    else if off =? 0x25a then 0x10
    else 0.

(** * Properties *)

(** Case analysis on the first conditional of the goal. *)
Ltac case_if :=
  match goal with
  | |- context [if ?b then _ else _] => destruct b eqn:?
  end.

(** ** Integer helpers *)

Lemma u8_range x : 0 <= u8 x < 256.
Proof. unfold u8. apply Z.mod_pos_bound. lia. Qed.

Lemma u16_range x : 0 <= u16 x < 65536.
Proof. unfold u16. apply Z.mod_pos_bound. lia. Qed.

Lemma u32_range x : 0 <= u32 x < 4294967296.
Proof. unfold u32. apply Z.mod_pos_bound. lia. Qed.

Lemma u8_small x : 0 <= x < 256 -> u8 x = x.
Proof. apply Z.mod_small. Qed.


Lemma u32_small x : 0 <= x < 4294967296 -> u32 x = x.
Proof. apply Z.mod_small. Qed.

Lemma load8_range m off : 0 <= load8 m off < 256.
Proof. apply u8_range. Qed.

Lemma s8_range (x : Z) : -128 <= s8 x <= 127.
Proof.
  unfold s8. pose proof (Z.mod_pos_bound x 256 ltac:(lia)).
  destruct (x mod 256 <? 128) eqn:E; lia.
Qed.

Lemma note_val_range (note : Z) : 0 <= note_val note < 256.
Proof. apply u8_range. Qed.

Lemma note_inst_range (note : Z) : 0 <= note_inst note < 256.
Proof. apply u8_range. Qed.

(** Ranges of the values read from the module. *)
Create HintDb lmp_range discriminated.
#[local] Hint Resolve u8_range u16_range u32_range load8_range
  note_val_range note_inst_range : lmp_range.

(** ** Fixed-point primitives *)

Lemma lmp_samps_from_tempo_125 : lmp_samps_from_tempo 125 = 882.
Proof. reflexivity. Qed.

(** C4: for every period in [113, 856], at the output rate 44100, the phase
    increment is the integer (truncating) quotient of 4096 * 254 * 14000 by
    44100 * period. *)
Theorem lmp_pi_from_pitch_quotient (period : Z) :
  113 <= period <= 856 ->
  lmp_pi_from_pitch period = (4096 * 254 * 14000) / (44100 * period).
Proof.
  intros Hp. unfold lmp_pi_from_pitch, LMP_SAMPLERATE, SAMP_FP_SPLIT.
  change (Z.shiftl 1 12) with 4096.
  rewrite Z.div_div by lia.
  apply u32_small. split.
  - apply Z.div_pos; lia.
  - apply Z.div_lt_upper_bound; lia.
Qed.

Lemma lmp_pi_from_pitch_quotient_witness :
  113 <= 254 <= 856 /\
  lmp_pi_from_pitch 254 = (4096 * 254 * 14000) / (44100 * 254).
Proof. split; [lia | apply lmp_pi_from_pitch_quotient; lia]. Defined.

(** The quotient is truncated, not rounded to nearest: at period 113 the
    exact ratio is 2922.83... and the increment is 2922. *)
Remark lmp_pi_from_pitch_truncates :
  lmp_pi_from_pitch 113 = 2922 /\
  2 * ((4096 * 254 * 14000) mod (44100 * 113)) > 44100 * 113.
Proof. split; [reflexivity | vm_compute; reflexivity]. Qed.

(** ** Loader *)

(** C1 (as amended): [lmp_init] has no length to check against and returns
    the success status 0 for every module memory and every prior content of
    the player struct. *)
Theorem lmp_init_always_succeeds (mps : mps_t) (mod_base : blob) :
  snd (lmp_init mps mod_base) = 0.
Proof.
  unfold lmp_init.
  destruct (lnot (strncmp_MK mod_base 1080) =? 0); reflexivity.
Qed.

(** C1 (counterexample): the empty slice is shorter than the offsets the
    loader computes from it, and [lmp_init] still returns success. *)
Lemma lmp_init_accepts_truncated :
  let r := lmp_init mps_blank (file_blob []) in
  Z.of_nat (length ([] : list Z)) < module_extent (fst r) /\ snd r = 0.
Proof. vm_compute. split; reflexivity. Qed.

(** ** Note cell decoding *)

Lemma note_inst_bits (x0 x1 x2 x3 : Z) :
  (Z.lor
     (Z.land
        (Z.shiftr
           (Z.lor (Z.lor (x0 mod 2 ^ 8) (Z.shiftl (x1 mod 2 ^ 8) 8))
                  (Z.lor (Z.shiftl (x2 mod 2 ^ 8) 16)
                         (Z.shiftl (x3 mod 2 ^ 8) 24))) 20) (Z.ones 4))
     (Z.land
        (Z.lor (Z.lor (x0 mod 2 ^ 8) (Z.shiftl (x1 mod 2 ^ 8) 8))
               (Z.lor (Z.shiftl (x2 mod 2 ^ 8) 16)
                      (Z.shiftl (x3 mod 2 ^ 8) 24))) (2 ^ 4))) mod 2 ^ 8
  = Z.lor (Z.land (x0 mod 2 ^ 8) (2 ^ 4)) (Z.shiftr (x2 mod 2 ^ 8) 4).
Proof.
  Z.bitblast.
  all: destruct (Z.eqb_spec 4 i); subst;
    repeat match goal with
      | |- context [Z.testbit ?x ?j] => rewrite (Z.testbit_neg_r x j) by lia
      end;
    try (exfalso; lia); try btauto.
Qed.

(** C8 (as amended): with [b0 b1 b2 b3] the cell's bytes in file order, the
    decoded instrument number is [(b0 & 0x10) | (b2 >> 4)]: of the first
    byte only bit 4 is used. *)
Theorem note_inst_decode (m : blob) (off : Z) :
  note_inst (host_to_LE32 (load32 m off))
  = Z.lor (Z.land (load8 m off) 16) (Z.shiftr (load8 m (off + 2)) 4).
Proof.
  unfold note_inst, host_to_LE32, load32, load8, u8.
  change 256 with (2 ^ 8). change 15 with (Z.ones 4). change 16 with (2 ^ 4).
  apply note_inst_bits.
Qed.

(** C8 (counterexample): for the cell [20 00 10 00] the code decodes
    instrument 1, which is not [(b0 & 0xF0) | (b2 >> 4)] = 0x21. *)
Lemma note_inst_ignores_high_bits :
  let m := file_blob [32; 0; 16; 0] in
  note_inst (host_to_LE32 (load32 m 0))
  <> Z.lor (Z.land (load8 m 0) 240) (Z.shiftr (load8 m 2) 4).
Proof. vm_compute. discriminate. Qed.

(** ** Arrays of four channels *)

Lemma length4 {A} (l : list A) :
  length l = 4%nat -> exists a b c d, l = [a; b; c; d].
Proof.
  destruct l as [|a [|b [|c [|d [|e l]]]]]; simpl; intros H; try discriminate.
  eauto.
Qed.


(** ** Effect commands *)

Lemma lmp_process_command_speed (mps : mps_t) (chan : nat) (val : Z) :
  0 < val < 31 ->
  let mps' := lmp_process_command mps chan 15 val in
  mps_speed mps' = val /\ mps_tick_counter mps' = val.
Proof.
  intros H. simpl.
  replace (val >? 0) with true by lia. replace (val <? 31) with true by lia.
  replace (val >=? 32) with false by lia. simpl. split; reflexivity.
Qed.

Lemma lmp_process_command_tempo (mps : mps_t) (chan : nat) (val : Z) :
  32 <= val -> mps_support_tempo mps <> 0 ->
  let mps' := lmp_process_command mps chan 15 val in
  mps_tempo mps' = val /\
  mps_samples_per_tick mps' = lmp_samps_from_tempo val /\
  mps_speed mps' = mps_speed mps.
Proof.
  intros H Ht. simpl.
  replace (val <? 31) with false by lia. rewrite andb_false_r.
  replace (val >=? 32) with true by lia.
  destruct (Z.eqb_spec (mps_support_tempo mps) 0); [contradiction|].
  simpl. repeat split; reflexivity.
Qed.

(** C7 (evaluation at the failing input): effect 15 with parameter 0x1F is
    in neither branch ([val < 0x1f], [val >= 0x20]) and changes nothing;
    played from a cell [00 00 0F 1F] in the first row, it leaves [speed]
    and [tick_counter] at 6, not 31. *)
Theorem lmp_process_command_speed_0x1f :
  (forall mps chan, lmp_process_command mps chan 15 0x1f = mps) /\
  (let s := play mod_speed_0x1f [FillBuffer 882 LMP_MONO] in
   cell_command s 0 0 0 = 15 /\ mps_pos_pattern s = 1 /\
   mps_speed s = 6 /\ mps_tick_counter s = 6).
Proof. split; [reflexivity|]. vm_compute. repeat split; reflexivity. Qed.

(** ** Inter-row ticks *)




(** C6 (evaluation at the failing input): the note B-3 (period 113) with
    effect 1, parameter 0xFF.  The first tick starts the note and arms the
    slide; on the next tick (an inter-row tick) the 16-bit pitch wraps to
    113 - 255 + 65536 = 65394 and the lower clamp does not apply. *)
Theorem porta_up_wraps_below_zero :
  let s1 := play mod_porta_up [FillBuffer 882 LMP_MONO] in
  let s2 := lmp_run s1 [FillBuffer 882 LMP_MONO] in
  (c_pitch (chan_get s1 0) = 113 /\
   c_effect (chan_get s1 0) = 1 /\
   c_effect_param (chan_get s1 0) = 255 /\
   mps_tick_counter s1 > 1) /\
  c_pitch (chan_get s2 0) = 65394 /\
  Z.max (113 - 255) 113 = 113.
Proof. vm_compute. repeat split; reflexivity. Qed.

(** ** Interpolation reads *)

Lemma lmp_render_chan_reads (m : blob) (ch : mpschan_t) :
  c_on ch <> 0 ->
  let ip := Z.shiftr (c_pos ch) 12 in
  snd (lmp_render_chan m ch)
  = ip :: (if ip <? Z.shiftr (c_len ch) 12 then [ip + 1] else []).
Proof.
  intros Hon. unfold lmp_render_chan.
  destruct (Z.eqb_spec (c_on ch) 0); [contradiction|]. reflexivity.
Qed.

(** C5 (evaluation at the failing input): a two-byte instrument, the last
    data of a 1626-byte file, played at period 254.  Four frames after the
    note starts the phase is 5200, so [ip = 1] and [len >> 12 = 2]: the code
    tests [ip < 2] and reads [sample[2]], the byte after the sample and
    after the file, although [ip + 1 < 2] is false. *)
Theorem render_reads_past_sample_end :
  let s := play mod_short_sample [FillBuffer 886 LMP_MONO] in
  let ch := chan_get s 0 in
  c_on ch = 1 /\
  Z.shiftr (c_pos ch) 12 = 1 /\
  Z.shiftr (c_len ch) 12 = 2 /\
  snd (lmp_render_chan (mps_mod_data s) ch) = [1; 2] /\
  c_sample ch + 2 = Z.of_nat (length mod_short_sample).
Proof. vm_compute. repeat split; reflexivity. Qed.

(** ** Output of the mixers *)

Lemma lmp_fill_buffer_enum (s : mps_t) (n : Z) (mx : lmp_mix_t) :
  lmp_fill_buffer s n (mix_val mx) = lmp_fill_buffer_mix mx s n.
Proof. destruct mx; reflexivity. Qed.

Lemma lmp_fill_buffer_bad_mix (s : mps_t) (n mix_type : Z) :
  mix_type <> 0 -> mix_type <> 1 -> mix_type <> 2 ->
  lmp_fill_buffer s n mix_type = (s, [], -1).
Proof.
  intros H0 H1 H2. unfold lmp_fill_buffer. simpl.
  destruct (Z.eqb_spec mix_type 0); [contradiction|].
  destruct (Z.eqb_spec mix_type 2); [contradiction|].
  destruct (Z.eqb_spec mix_type 1); [contradiction|]. reflexivity.
Qed.










(** ** The silent lead-in after [lmp_init] *)

Lemma chan_set_get (s : mps_t) (chan : nat) :
  (chan < length (mps_cs s))%nat -> chan_set chan (chan_get s chan) s = s.
Proof.
  intros H. unfold chan_set, chan_get.
  rewrite list_insert_id by (apply list_lookup_lookup_total_lt; exact H).
  destruct s; reflexivity.
Qed.

Lemma lmp_render_chan_off (m : blob) (ch : mpschan_t) :
  c_on ch = 0 -> lmp_render_chan m ch = (ch, 0, []).
Proof. intros H. unfold lmp_render_chan. rewrite H. reflexivity. Qed.

Lemma lmp_render_samples_all_off (s : mps_t) :
  length (mps_cs s) = 4%nat -> all_off s ->
  lmp_render_samples s = (s, [0; 0; 0; 0]).
Proof.
  intros Hl Hoff. unfold lmp_render_samples, chans. cbn [fold_left].
  assert (Hc : forall chan, (chan < 4)%nat -> c_on (chan_get s chan) = 0).
  { intros chan Hc. unfold chan_get.
    apply (Forall_lookup_total_1 (fun c => c_on c = 0)); [exact Hoff | lia]. }
  rewrite (lmp_render_chan_off _ _ (Hc 0%nat ltac:(lia))), chan_set_get by lia.
  rewrite (lmp_render_chan_off _ _ (Hc 1%nat ltac:(lia))), chan_set_get by lia.
  rewrite (lmp_render_chan_off _ _ (Hc 2%nat ltac:(lia))), chan_set_get by lia.
  rewrite (lmp_render_chan_off _ _ (Hc 3%nat ltac:(lia))), chan_set_get by lia.
  reflexivity.
Qed.

Lemma mix_frame_silence (mx : lmp_mix_t) :
  Forall (fun x => x = 0) (mix_frame mx [0; 0; 0; 0]).
Proof. destruct mx; vm_compute; repeat constructor. Qed.

Lemma lmp_init_quiet (mps : mps_t) (m : blob) :
  mps_wf mps -> quiet 0 (fst (lmp_init mps m)).
Proof.
  intros [_ Hcs]. destruct (length4 _ Hcs) as (a & b & c & d & E).
  unfold lmp_init, quiet, all_off.
  destruct (lnot (strncmp_MK m 1080) =? 0); cbn [fst mps_cs mps_tick_counter
    mps_pos_pattern mps_samples_per_tick mps_sample_counter]; rewrite E.
  all: repeat split; try reflexivity; try lia.
  all: repeat constructor.
Qed.

Lemma lmp_frame_quiet (mx : lmp_mix_t) (s : mps_t) (k : Z) :
  quiet k s -> k + 1 < 882 ->
  lmp_frame mx s
  = (set_sample_counter (882 - (k + 1)) s, mix_frame mx [0; 0; 0; 0], 0).
Proof.
  intros (Hl & Hoff & _ & _ & _ & Hsc & Hk) Hlt. unfold lmp_frame.
  rewrite lmp_render_samples_all_off by assumption.
  unfold lmp_check_for_tick. cbn [mps_sample_counter set_sample_counter].
  rewrite Hsc, u32_small by lia.
  destruct (Z.eqb_spec (882 - k - 1) 0); [lia|].
  do 2 f_equal. f_equal. lia.
Qed.

Lemma lmp_frame_quiet_last (mx : lmp_mix_t) (s : mps_t) :
  quiet 881 s ->
  lmp_frame mx s
  = (fst (lmp_tick (set_sample_counter 882 s)), mix_frame mx [0; 0; 0; 0],
     snd (lmp_tick (set_sample_counter 882 s))).
Proof.
  intros (Hl & Hoff & _ & _ & Hspt & Hsc & Hk). unfold lmp_frame.
  rewrite lmp_render_samples_all_off by assumption.
  unfold lmp_check_for_tick. cbn [mps_sample_counter set_sample_counter].
  rewrite Hsc. change (u32 (882 - 881 - 1) =? 0) with true. cbv iota.
  change (mps_samples_per_tick (set_sample_counter (u32 (882 - 881 - 1)) s))
    with (mps_samples_per_tick s).
  rewrite Hspt.
  change (set_sample_counter 882 (set_sample_counter (u32 (882 - 881 - 1)) s))
    with (set_sample_counter 882 s).
  destruct (lmp_tick (set_sample_counter 882 s)); reflexivity.
Qed.

Lemma quiet_next (s : mps_t) (k : Z) :
  quiet k s -> k + 1 < 882 ->
  quiet (k + 1) (set_sample_counter (882 - (k + 1)) s).
Proof.
  intros (Hl & Hoff & Htc & Hpp & Hspt & Hsc & Hk) Hlt.
  unfold quiet, all_off. cbn. repeat split; auto; lia.
Qed.

Lemma lmp_fill_loop_quiet (mx : lmp_mix_t) (iters : nat) :
  forall (s : mps_t) (k : Z) (samples : list Z) (done : Z),
    quiet k s -> k + Z.of_nat iters <= 882 ->
    Forall (fun x => x = 0) samples -> done = 0 ->
    let r := lmp_fill_loop mx iters s samples done in
    Forall (fun x => x = 0) (snd (fst r)) /\
    (k + Z.of_nat iters < 882 ->
     fst (fst r) = set_sample_counter (882 - (k + Z.of_nat iters)) s /\
     snd r = 0).
Proof.
  induction iters as [|n IH]; intros s k samples done Hq Hle Hz Hd.
  - cbn. split; [exact Hz|]. intros _. split; [|exact Hd].
    destruct Hq as (_ & _ & _ & _ & _ & Hsc & _).
    rewrite Z.add_0_r, <- Hsc. destruct s; reflexivity.
  - cbn [lmp_fill_loop]. destruct (Z.eq_dec k 881) as [-> | Hne].
    + assert (n = 0%nat) as -> by lia.
      rewrite lmp_frame_quiet_last by exact Hq. cbn.
      split; [|lia].
      apply Forall_app_2; [exact Hz | apply mix_frame_silence].
    + assert (Hk : k + 1 < 882) by (destruct Hq as (_&_&_&_&_&_&?); lia).
      rewrite (lmp_frame_quiet mx s k Hq Hk).
      specialize (IH (set_sample_counter (882 - (k + 1)) s) (k + 1)
                     (samples ++ mix_frame mx [0; 0; 0; 0]) (Z.lor done 0)).
      destruct IH as [IH1 IH2].
      * apply quiet_next; assumption.
      * lia.
      * apply Forall_app_2; [exact Hz | apply mix_frame_silence].
      * subst done. reflexivity.
      * split; [exact IH1|]. intros Hlt.
        destruct IH2 as [E1 E2]; [lia|]. split; [|exact E2].
        rewrite E1. replace (k + 1 + Z.of_nat n) with (k + Z.of_nat (S n)) by lia.
        reflexivity.
Qed.

Lemma lmp_fill_loop_snoc (mx : lmp_mix_t) (n : nat) :
  forall (s : mps_t) (samples : list Z) (done : Z),
    lmp_fill_loop mx (S n) s samples done
    = let r := lmp_fill_loop mx n s samples done in
      let f := lmp_frame mx (fst (fst r)) in
      (fst (fst f), snd (fst r) ++ snd (fst f), Z.lor (snd r) (snd f)).
Proof.
  induction n as [|n IH]; intros s samples done.
  - cbn. destruct (lmp_frame mx s) as [[s1 out] d]. reflexivity.
  - change (lmp_fill_loop mx (S (S n)) s samples done)
      with (let '(s1, out, d) := lmp_frame mx s in
            lmp_fill_loop mx (S n) s1 (samples ++ out) (Z.lor done d)).
    destruct (lmp_frame mx s) as [[s1 out] d] eqn:E.
    rewrite IH. cbn [lmp_fill_loop]. rewrite E. reflexivity.
Qed.

Lemma lmp_do_fill (s : mps_t) (n : Z) (mx : lmp_mix_t) :
  lmp_do s (FillBuffer n mx)
  = fst (fst (lmp_fill_loop mx (loop_iters mx n) s [] 0)).
Proof.
  cbn [lmp_do]. rewrite lmp_fill_buffer_enum. unfold lmp_fill_buffer_mix.
  destruct (lmp_fill_loop mx (loop_iters mx n) s [] 0) as [[s1 out] d].
  reflexivity.
Qed.

Lemma call_samples_fill (s : mps_t) (n : Z) (mx : lmp_mix_t) :
  call_samples s (FillBuffer n mx)
  = snd (fst (lmp_fill_loop mx (loop_iters mx n) s [] 0)).
Proof.
  cbn [call_samples]. rewrite lmp_fill_buffer_enum. unfold lmp_fill_buffer_mix.
  destruct (lmp_fill_loop mx (loop_iters mx n) s [] 0) as [[s1 out] d].
  reflexivity.
Qed.

Lemma lmp_output_no_frames (calls : list lmp_call) :
  forall s, total_frames calls = 0%nat -> lmp_output s calls = [].
Proof.
  induction calls as [|c rest IH]; intros s H; [reflexivity|].
  cbn [total_frames foldr] in H. fold (total_frames rest) in H.
  cbn [lmp_output]. rewrite IH by lia.
  destruct c as [n mx| |]; try reflexivity.
  rewrite call_samples_fill. cbn [call_frames] in H.
  assert (loop_iters mx n = 0%nat) as -> by lia. reflexivity.
Qed.

Lemma quiet_advance (s : mps_t) (k j : Z) :
  quiet k s -> k <= j < 882 -> quiet j (set_sample_counter (882 - j) s).
Proof.
  intros (Hl & Hoff & Htc & Hpp & Hspt & Hsc & Hk) Hj.
  unfold quiet, all_off. cbn. repeat split; auto; lia.
Qed.

Lemma quiet_other_calls (s : mps_t) (k : Z) (c : lmp_call) :
  quiet k s -> call_frames c = 0%nat ->
  (forall n mx, c <> FillBuffer n mx) -> quiet k (lmp_do s c).
Proof.
  intros Hq _ Hc. destruct c as [n mx|o v|p].
  - exfalso. exact (Hc n mx eq_refl).
  - cbn [lmp_do]. unfold lmp_set_option.
    destruct o as [|[?|?|]|]; exact Hq.
  - cbn [lmp_do]. unfold lmp_set_pos.
    destruct (p <? mps_length s); [|exact Hq].
    destruct Hq as (Hl & Hoff & Htc & Hpp & Hspt & Hsc & Hk).
    unfold quiet, all_off. cbn. repeat split; auto; lia.
Qed.

Lemma lmp_run_quiet (calls : list lmp_call) :
  forall (s : mps_t) (k : Z),
    quiet k s -> k + Z.of_nat (total_frames calls) <= 882 ->
    Forall (fun x => x = 0) (lmp_output s calls) /\
    (k + Z.of_nat (total_frames calls) < 882 ->
     quiet (k + Z.of_nat (total_frames calls)) (lmp_run s calls)).
Proof.
  induction calls as [|c rest IH]; intros s k Hq Hle.
  - cbn. split; [constructor|]. intros _. rewrite Z.add_0_r. exact Hq.
  - cbn [total_frames foldr] in *. fold (total_frames rest) in *.
    cbn [lmp_output lmp_run fold_left]. fold (lmp_run (lmp_do s c) rest).
    destruct c as [n mx|o v|p].
    + cbn [call_frames] in *. rewrite call_samples_fill, lmp_do_fill.
      pose proof (lmp_fill_loop_quiet mx (loop_iters mx n) s k [] 0 Hq
                    ltac:(lia) ltac:(constructor) eq_refl) as [Hz Hst].
      destruct (Z.lt_ge_cases (k + Z.of_nat (loop_iters mx n)) 882) as [Hlt|Hge].
      * destruct (Hst Hlt) as [Es _]. rewrite Es.
        destruct (IH (set_sample_counter
                        (882 - (k + Z.of_nat (loop_iters mx n))) s)
                     (k + Z.of_nat (loop_iters mx n))) as [IH1 IH2].
        { apply (quiet_advance s k); [exact Hq|].
          destruct Hq as (_&_&_&_&_&_&?); lia. }
        { lia. }
        split; [apply Forall_app_2; assumption|].
        intros H. rewrite Nat2Z.inj_add, Z.add_assoc. apply IH2. lia.
      * rewrite (lmp_output_no_frames rest) by lia.
        split; [apply Forall_app_2; [exact Hz | constructor]|]. lia.
    + destruct (IH (lmp_do s (SetOption o v)) k) as [IH1 IH2].
      { apply quiet_other_calls; [exact Hq | reflexivity | discriminate]. }
      { cbn [call_frames] in Hle. lia. }
      split; [exact IH1|]. exact IH2.
    + destruct (IH (lmp_do s (SetPos p)) k) as [IH1 IH2].
      { apply quiet_other_calls; [exact Hq | reflexivity | discriminate]. }
      { cbn [call_frames] in Hle. lia. }
      split; [exact IH1|]. exact IH2.
Qed.

Lemma lmp_fill_loop_first_tick (mx : lmp_mix_t) (s : mps_t) :
  quiet 0 s -> fst (fst (lmp_fill_loop mx 882 s [] 0)) = fst (lmp_tick s).
Proof.
  intros Hq. change 882%nat with (S 881). rewrite lmp_fill_loop_snoc.
  pose proof (lmp_fill_loop_quiet mx 881 s 0 [] 0 Hq ltac:(lia)
                ltac:(constructor) eq_refl) as [_ Hst].
  destruct Hst as [Es _]; [lia|]. cbv zeta. rewrite Es.
  rewrite lmp_frame_quiet_last.
  - cbn [fst]. f_equal.
    destruct Hq as (_ & _ & _ & _ & _ & Hsc & _).
    destruct s; cbn in *. rewrite Hsc. reflexivity.
  - apply (quiet_advance s 0 881 Hq). lia.
Qed.

(** C10: right after [lmp_init], for every module, [samples_per_tick] is
    882, all four channels are off, and every sample stored by the first
    882 mixer frames is zero, however the frames are split over calls.
    Until 882 frames have been produced no row has been sequenced (the row
    cursor and tick counter are still 0 and the channels off); the 882nd
    frame is followed by the first call of [lmp_tick], on the state
    [lmp_init] left. *)
Theorem lead_in_is_silent (mps : mps_t) (m : blob) (calls : list lmp_call) :
  mps_wf mps -> (total_frames calls <= 882)%nat ->
  let s0 := fst (lmp_init mps m) in
  (mps_samples_per_tick s0 = 882 /\ mps_sample_counter s0 = 882 /\ all_off s0)
  /\ Forall (fun x => x = 0) (lmp_output s0 calls)
  /\ ((total_frames calls < 882)%nat ->
      let s := lmp_run s0 calls in
      mps_pos_pattern s = 0 /\ mps_tick_counter s = 0 /\ all_off s /\
      mps_sample_counter s = 882 - Z.of_nat (total_frames calls))
  /\ (forall mx, fst (fst (lmp_fill_loop mx 882 s0 [] 0)) = fst (lmp_tick s0)).
Proof.
  intros Hwf Hle s0.
  pose proof (lmp_init_quiet mps m Hwf) as Hq. fold s0 in Hq.
  destruct (lmp_run_quiet calls s0 0 Hq ltac:(lia)) as [Hz Hst].
  repeat split.
  - apply Hq.
  - destruct Hq as (_ & _ & _ & _ & _ & Hsc & _). rewrite Hsc. reflexivity.
  - apply Hq.
  - exact Hz.
  - apply Hst. lia.
  - apply Hst. lia.
  - apply Hst. lia.
  - destruct Hst as (_ & _ & _ & _ & _ & Hsc & _); [lia|]. exact Hsc.
  - intros mx. apply lmp_fill_loop_first_tick. exact Hq.
Qed.

Lemma lead_in_is_silent_witness :
  mps_wf mps_blank /\
  (total_frames [FillBuffer 100 LMP_MONO; FillBuffer 200 LMP_STEREO_HARD]
   <= 882)%nat /\
  let calls := [FillBuffer 100 LMP_MONO; FillBuffer 200 LMP_STEREO_HARD] in
  let s0 := fst (lmp_init mps_blank zero_blob) in
  (mps_samples_per_tick s0 = 882 /\ mps_sample_counter s0 = 882 /\ all_off s0)
  /\ Forall (fun x => x = 0) (lmp_output s0 calls)
  /\ ((total_frames calls < 882)%nat ->
      let s := lmp_run s0 calls in
      mps_pos_pattern s = 0 /\ mps_tick_counter s = 0 /\ all_off s /\
      mps_sample_counter s = 882 - Z.of_nat (total_frames calls))
  /\ (forall mx, fst (fst (lmp_fill_loop mx 882 s0 [] 0)) = fst (lmp_tick s0)).
Proof.
  split; [split; reflexivity|]. split; [vm_compute; lia|].
  apply (lead_in_is_silent mps_blank zero_blob
           [FillBuffer 100 LMP_MONO; FillBuffer 200 LMP_STEREO_HARD]).
  - split; reflexivity.
  - vm_compute. lia.
Defined.

(** ** Reasoning principles for the loops and the command switch *)

Lemma for_chans_ind (P : mps_t -> Prop) (body : nat -> mps_t -> mps_t)
    (s : mps_t) :
  P s ->
  (forall chan s', (chan < 4)%nat -> P s' -> P (body chan s')) ->
  P (for_chans body s).
Proof.
  intros H0 Hstep. unfold for_chans, chans. cbn [fold_left].
  repeat apply Hstep; try lia. exact H0.
Qed.

Lemma lmp_render_samples_state (s : mps_t) :
  fst (lmp_render_samples s) = for_chans render_state s.
Proof.
  unfold lmp_render_samples, for_chans, chans, render_state. cbn [fold_left].
  repeat match goal with
         | |- context [lmp_render_chan ?m ?c] =>
             destruct (lmp_render_chan m c) as [[? ?] ?]; cbn [fst snd]
         end.
  reflexivity.
Qed.

(** Case analysis following the [switch] of [lmp_process_command]. *)
Lemma lmp_process_command_cases (P : mps_t -> Prop) (mps : mps_t)
    (chan : nat) (command val : Z) :
  P mps ->
  (command = 1 \/ command = 2 ->
     P (chan_upd chan (fun c => set_c_effect_param val (set_c_effect command c)) mps)) ->
  (command = 10 -> P (lmp_process_command mps chan 10 val)) ->
  (command = 11 -> P (lmp_process_command mps chan 11 val)) ->
  (command = 12 -> P (lmp_process_command mps chan 12 val)) ->
  (command = 13 -> P (lmp_process_command mps chan 13 val)) ->
  (command = 15 -> P (lmp_process_command mps chan 15 val)) ->
  P (lmp_process_command mps chan command val).
Proof.
  intros H0 H12 H10 H11 H12' H13 H15.
  destruct command as [|p|p]; try exact H0.
  do 4 (try destruct p as [p|p|]); try exact H0;
    try (apply H10; reflexivity); try (apply H11; reflexivity);
    try (apply H12'; reflexivity); try (apply H13; reflexivity);
    try (apply H15; reflexivity).
  - apply H12. auto.
  - apply H12. auto.
Qed.

(** ** Channel volume *)

Lemma header_volume_bits (x0 x1 : Z) :
  (Z.land (Z.ones 7)
     (Z.lor
        (Z.land (Z.shiftr (Z.lor (x0 mod 2 ^ 8) (Z.shiftl (x1 mod 2 ^ 8) 8)) 8)
                (Z.ones 8))
        (Z.land (Z.shiftl (Z.lor (x0 mod 2 ^ 8) (Z.shiftl (x1 mod 2 ^ 8) 8)) 8)
                (Z.shiftl (Z.ones 8) 8)))) mod 2 ^ 8
  = Z.land (x1 mod 2 ^ 8) (Z.ones 7).
Proof.
  Z.bitblast.
  all: repeat match goal with
         | |- context [Z.testbit ?x ?j] => rewrite (Z.testbit_neg_r x j) by lia
         end;
       try (exfalso; lia); try btauto.
Qed.

Lemma header_volume_load (m : blob) (off : Z) :
  u8 (Z.land 127 (BE_to_host16 (load16 m off)))
  = Z.land (load8 m (off + 1)) 127.
Proof.
  unfold BE_to_host16, BS16, load16, load8, u8.
  change 256 with (2 ^ 8). change 127 with (Z.ones 7).
  change 255 with (Z.ones 8). change 65280 with (Z.shiftl (Z.ones 8) 8).
  apply header_volume_bits.
Qed.

Lemma header_volume_range (m : blob) (i : nat) : 0 <= header_volume m i <= 127.
Proof.
  unfold header_volume. change 127 with (Z.ones 7) at 1 2.
  rewrite Z.land_ones by lia.
  pose proof (Z.mod_pos_bound (load8 m (20 + 30 * Z.of_nat i + 25)) (2 ^ 7)).
  lia.
Qed.

Lemma lmp_init_inst_fold (m : blob) (n : nat) :
  forall (l0 : list mpsamp_t) (p0 : Z),
    (n <= length l0)%nat ->
    let r := fold_left (lmp_init_inst m 20) (seq 0 n) (l0, p0) in
    length (fst r) = length l0 /\
    forall i, (i < n)%nat ->
              i_default_volume (fst r !!! i) = header_volume m i.
Proof.
  induction n as [|n IH]; intros l0 p0 Hn.
  - cbn. split; [reflexivity | lia].
  - rewrite seq_S, fold_left_app. cbn [fold_left Nat.add].
    destruct (IH l0 p0 ltac:(lia)) as [Hl Hv].
    destruct (fold_left (lmp_init_inst m 20) (seq 0 n) (l0, p0)) as [l p].
    cbn [fst] in *. unfold lmp_init_inst. cbn [fst].
    split; [rewrite length_insert; exact Hl|].
    intros i Hi. destruct (decide (i = n)) as [-> | Hne].
    + rewrite list_lookup_total_insert_eq by lia. cbn [i_default_volume].
      rewrite header_volume_load. unfold header_volume.
      f_equal. f_equal. lia.
    + rewrite list_lookup_total_insert_ne by congruence. apply Hv. lia.
Qed.

Lemma lmp_render_chan_vol (m : blob) (ch : mpschan_t) :
  c_vol (fst (fst (lmp_render_chan m ch))) = c_vol ch.
Proof.
  unfold lmp_render_chan. cbv zeta.
  case_if; [reflexivity|]. cbn [fst].
  repeat (case_if; cbn [c_looping c_pos c_len c_repeat_end set_c_pos
                          set_c_on set_c_looping]); reflexivity.
Qed.

Lemma lmp_tick_effect_vol (c : mpschan_t) :
  c_vol (lmp_tick_effect c) = c_vol c.
Proof.
  unfold lmp_tick_effect.
  destruct (c_effect c) as [|p|p]; try reflexivity.
  do 2 (try destruct p as [p|p|]); try reflexivity.
  all: cbv zeta; repeat (case_if; cbn [c_pitch set_c_pitch]); reflexivity.
Qed.

Lemma lmp_init_default_volume (mps : mps_t) (m : blob) (i : nat) :
  mps_wf mps -> (i < module_instruments m)%nat ->
  i_default_volume (mps_inst (fst (lmp_init mps m)) !!! i) = header_volume m i.
Proof.
  intros [Hinst _] Hi. unfold module_instruments in Hi. unfold lmp_init.
  destruct (lnot (strncmp_MK m 1080) =? 0) eqn:E31; cbn [fst mps_inst].
  all: match goal with
       | |- context [fold_left (lmp_init_inst ?b 20) (seq 0 ?n) (?l, ?p)] =>
           destruct (lmp_init_inst_fold b n l p) as [_ Hv];
             [unfold num_instruments; destruct (_ =? 0); lia|]
       end.
  all: apply Hv; exact Hi.
Qed.

(** Preservation of a volume bound [V], for any [V] that admits the full
    volume 64 the player itself installs. *)
Section VolumeBound.

Variable V : Z.
Hypothesis HV : 64 <= V.

Lemma lmp_init_vols (mps : mps_t) (m : blob) :
  mps_wf mps ->
  (forall i, (i < module_instruments m)%nat -> header_volume m i <= V) ->
  vols_within V (fst (lmp_init mps m)).
Proof.
  intros [Hinst Hcs] Hhdr.
  destruct (length4 _ Hcs) as (a & b & c & d & E).
  unfold module_instruments in Hhdr. unfold lmp_init, vols_within.
  destruct (lnot (strncmp_MK m 1080) =? 0) eqn:E31;
    cbn [fst mps_cs mps_inst mps_thirtyone]; rewrite E.
  all: split; [reflexivity|]; split;
    [repeat constructor; unfold vol_ok; cbn; lia|].
  all: intros i Hi.
  all: match goal with
       | |- context [fold_left (lmp_init_inst ?b 20) (seq 0 ?n) (?l, ?p)] =>
           destruct (lmp_init_inst_fold b n l p) as [_ Hv];
             [unfold num_instruments; destruct (_ =? 0); lia|]
       end.
  all: rewrite Hv by exact Hi.
  all: split; [apply header_volume_range | apply Hhdr; exact Hi].
Qed.

Lemma vols_within_ext (s s' : mps_t) :
  mps_cs s' = mps_cs s -> mps_inst s' = mps_inst s ->
  mps_thirtyone s' = mps_thirtyone s ->
  vols_within V s -> vols_within V s'.
Proof. unfold vols_within. intros -> -> ->. auto. Qed.

Lemma vols_within_chan_set (s : mps_t) (chan : nat) (c : mpschan_t) :
  vols_within V s -> vol_ok V c -> vols_within V (chan_set chan c s).
Proof.
  intros (Hl & Hc & Hi) Hv. unfold vols_within, chan_set. cbn.
  rewrite length_insert. split; [exact Hl|].
  split; [apply Forall_insert; assumption | exact Hi].
Qed.

Lemma vols_within_chan_get (s : mps_t) (chan : nat) :
  vols_within V s -> (chan < 4)%nat -> vol_ok V (chan_get s chan).
Proof.
  intros (Hl & Hc & _) Hlt. unfold chan_get.
  apply (Forall_lookup_total_1 (vol_ok V)); [exact Hc | lia].
Qed.

Lemma vols_within_chan_upd (s : mps_t) (chan : nat)
    (f : mpschan_t -> mpschan_t) :
  (forall c, c_vol (f c) = c_vol c) -> (chan < 4)%nat ->
  vols_within V s -> vols_within V (chan_upd chan f s).
Proof.
  intros Hf Hlt Hs. unfold chan_upd. apply vols_within_chan_set; [exact Hs|].
  unfold vol_ok. rewrite Hf. apply vols_within_chan_get; assumption.
Qed.

Lemma vols_within_render (s : mps_t) :
  vols_within V s -> vols_within V (fst (lmp_render_samples s)).
Proof.
  intros H. rewrite lmp_render_samples_state.
  apply for_chans_ind; [exact H|].
  intros chan s' Hc Hs'. unfold render_state.
  apply vols_within_chan_set; [exact Hs'|].
  unfold vol_ok. rewrite lmp_render_chan_vol.
  apply vols_within_chan_get; assumption.
Qed.

(** A new note installs the instrument's default volume. *)
Lemma vols_within_play (s : mps_t) (chan : nat) (inst freq : Z) :
  vols_within V s -> (chan < 4)%nat ->
  0 <= inst <= Z.of_nat (num_instruments (mps_thirtyone s)) ->
  vols_within V (lmp_tick_play chan inst freq s).
Proof.
  intros Hs Hc Hi. unfold lmp_tick_play. cbv zeta.
  apply vols_within_chan_set; [exact Hs|].
  pose proof (vols_within_chan_get s chan Hs Hc) as Hv.
  destruct Hs as (_ & _ & Hd).
  unfold vol_ok in *.
  destruct (Z.eqb_spec inst 0) as [E|E]; case_if; cbn; try exact Hv.
  all: apply Hd; lia.
Qed.

(** Effects 10 and 12 clamp to [0, 64]; the others leave [vol] alone. *)
Lemma vols_within_command (s : mps_t) (chan : nat) (command val : Z) :
  vols_within V s -> (chan < 4)%nat -> 0 <= val < 256 ->
  vols_within V (lmp_process_command s chan command val).
Proof.
  intros Hs Hc Hval.
  pose proof (vols_within_chan_get s chan Hs Hc) as Hv. unfold vol_ok in Hv.
  apply lmp_process_command_cases.
  - exact Hs.
  - intros _. apply vols_within_chan_upd; auto.
  - intros _. cbn [lmp_process_command]. cbv zeta.
    apply vols_within_chan_set; [exact Hs|].
    unfold vol_ok. cbn [c_vol set_c_vol].
    pose proof (s8_range val).
    repeat case_if; rewrite u8_small; lia.
  - intros _. cbn [lmp_process_command]. cbv zeta. case_if;
      apply (vols_within_ext s); auto.
  - intros _. cbn [lmp_process_command]. cbv zeta.
    apply vols_within_chan_set; [exact Hs|].
    unfold vol_ok. cbn [c_vol set_c_vol]. case_if; lia.
  - intros _. cbn [lmp_process_command]. cbv zeta. case_if;
      apply (vols_within_ext s); auto.
  - intros _. cbn [lmp_process_command]. cbv zeta.
    repeat case_if; apply (vols_within_ext s); auto.
Qed.

Lemma vols_within_tick_chan (cf : Z) (chan : nat) (s : mps_t) :
  (chan < 4)%nat -> vols_within V s ->
  vols_within V (lmp_tick_chan cf chan s).
Proof.
  intros Hc Hs. unfold lmp_tick_chan. cbv zeta.
  apply vols_within_command; auto with lmp_range.
  assert (H1 : vols_within V (chan_upd chan (set_c_effect 255) s))
    by (apply vols_within_chan_upd; auto).
  case_if; [|exact H1].
  apply vols_within_play; auto.
  pose proof (note_inst_range
                (host_to_LE32 (load32 (mps_mod_data s) (cf + 4 * Z.of_nat chan)))).
  apply andb_prop in Heqb. destruct Heqb as [_ Hle].
  change (mps_thirtyone (chan_upd chan (set_c_effect 255) s))
    with (mps_thirtyone s) in *.
  change (mps_mod_data (chan_upd chan (set_c_effect 255) s))
    with (mps_mod_data s) in *.
  unfold num_instruments. destruct (mps_thirtyone s =? 0); lia.
Qed.

Lemma vols_within_advance (s : mps_t) :
  vols_within V s -> vols_within V (fst (lmp_tick_advance s)).
Proof.
  intros Hs. unfold lmp_tick_advance. cbv zeta.
  repeat case_if; cbn [fst];
    repeat match goal with
      | |- vols_within _ (?f _ ?x) => apply (vols_within_ext x);
                                      try reflexivity
      end; assumption.
Qed.

Lemma vols_within_tick (s : mps_t) :
  vols_within V s -> vols_within V (fst (lmp_tick s)).
Proof.
  intros Hs. unfold lmp_tick. cbv zeta. case_if; cbn [fst].
  - match goal with
    | |- vols_within _ (set_tick_counter _ ?x) =>
        apply (vols_within_ext x); try reflexivity
    end.
    apply for_chans_ind; [exact Hs|].
    intros chan s' Hc Hs'. apply vols_within_chan_upd; auto.
    apply lmp_tick_effect_vol.
  - apply vols_within_advance.
    apply for_chans_ind.
    + apply (vols_within_ext s); auto.
    + intros chan s' Hc Hs'. apply vols_within_tick_chan; auto.
Qed.

Lemma vols_within_check_for_tick (s : mps_t) :
  vols_within V s -> vols_within V (fst (lmp_check_for_tick s)).
Proof.
  intros Hs. unfold lmp_check_for_tick. cbv zeta. case_if; cbn [fst].
  - apply vols_within_tick. apply (vols_within_ext s); auto.
  - apply (vols_within_ext s); auto.
Qed.

Lemma vols_within_frame (mx : lmp_mix_t) (s : mps_t) :
  vols_within V s -> vols_within V (fst (fst (lmp_frame mx s))).
Proof.
  intros Hs. unfold lmp_frame.
  pose proof (vols_within_render s Hs) as H1.
  destruct (lmp_render_samples s) as [s1 csamp]. cbn [fst] in H1.
  pose proof (vols_within_check_for_tick s1 H1) as H2.
  destruct (lmp_check_for_tick s1) as [s2 d]. exact H2.
Qed.

Lemma vols_within_fill_loop (mx : lmp_mix_t) (iters : nat) :
  forall (s : mps_t) (samples : list Z) (done : Z),
    vols_within V s ->
    vols_within V (fst (fst (lmp_fill_loop mx iters s samples done))).
Proof.
  induction iters as [|n IH]; intros s samples done Hs; [exact Hs|].
  cbn [lmp_fill_loop].
  pose proof (vols_within_frame mx s Hs) as H1.
  destruct (lmp_frame mx s) as [[s1 out] d]. apply IH; assumption.
Qed.

Lemma vols_within_do (s : mps_t) (c : lmp_call) :
  vols_within V s -> vols_within V (lmp_do s c).
Proof.
  intros Hs. destruct c as [n mx|o v|p].
  - rewrite lmp_do_fill. apply vols_within_fill_loop; assumption.
  - cbn [lmp_do]. unfold lmp_set_option.
    destruct o as [|[?|?|]|]; try exact Hs;
      apply (vols_within_ext s); auto.
  - cbn [lmp_do]. unfold lmp_set_pos. case_if; [|exact Hs].
    apply (vols_within_ext s); auto.
Qed.

Lemma vols_within_run (calls : list lmp_call) :
  forall s, vols_within V s -> vols_within V (lmp_run s calls).
Proof.
  induction calls as [|c rest IH]; intros s Hs; [exact Hs|].
  unfold lmp_run. cbn [fold_left]. apply IH.
  apply vols_within_do; assumption.
Qed.

End VolumeBound.

(** X28. What the code guarantees about volumes: the default volume [lmp_init]
    stores for an instrument is the header's volume byte masked to seven
    bits, a value in [0, 127]; after any sequence of calls every channel's
    [vol] is in [0, 127], and it is in [0, 64] when every masked header
    volume of the module is at most 64. *)
Theorem vol_bounds (mps : mps_t) (m : blob) (calls : list lmp_call) :
  mps_wf mps ->
  let s0 := fst (lmp_init mps m) in
  let s := lmp_run s0 calls in
  (forall i, (i < module_instruments m)%nat ->
     i_default_volume (mps_inst s0 !!! i) = header_volume m i /\
     0 <= header_volume m i <= 127) /\
  Forall (fun c => 0 <= c_vol c <= 127) (mps_cs s) /\
  ((forall i, (i < module_instruments m)%nat -> header_volume m i <= 64) ->
   Forall (fun c => 0 <= c_vol c <= 64) (mps_cs s)).
Proof.
  intros Hwf s0 s. split; [|split].
  - intros i Hi. split; [|apply header_volume_range].
    apply lmp_init_default_volume; assumption.
  - apply (vols_within_run 127 ltac:(lia) calls s0).
    apply (lmp_init_vols 127 ltac:(lia)); [exact Hwf|].
    intros i _. apply header_volume_range.
  - intros Hhdr. apply (vols_within_run 64 ltac:(lia) calls s0).
    apply (lmp_init_vols 64 ltac:(lia)); [exact Hwf | exact Hhdr].
Qed.

(** C3 (evaluation at the failing input): a module whose instrument 1 has
    volume byte 0x7F.  The loader stores default volume 127, the mask 0x7f
    being the only limit, and once the first row has been played channel 0
    has [vol] = 127, outside [0, 64]. *)
Theorem vol_exceeds_64 :
  let s := play mod_loud [FillBuffer 882 LMP_MONO] in
  i_default_volume (mps_inst s !!! 0%nat) = 127 /\
  c_vol (chan_get s 0) = 127 /\
  ~ (0 <= c_vol (chan_get s 0) <= 64).
Proof.
  vm_compute. split; [reflexivity|]. split; [reflexivity|].
  intros [_ H]. apply H. reflexivity.
Qed.

(** ** Progress of the sequencer *)



Lemma lmp_samps_from_tempo_range (val : Z) :
  32 <= val < 256 -> 1 <= lmp_samps_from_tempo val <= SPT_MAX.
Proof.
  intros H. unfold lmp_samps_from_tempo, LMP_SAMPLERATE, SPT_MAX.
  change (125 * 44100 / 50) with 110250.
  assert (432 <= 110250 / val) by (apply Z.div_le_lower_bound; lia).
  assert (110250 / val <= 3445).
  { apply Z.lt_succ_r. apply Z.div_lt_upper_bound; lia. }
  rewrite u32_small; lia.
Qed.

Lemma command_step_refl (command : Z) (s : mps_t) : command_step command s s.
Proof. unfold command_step. auto 10. Qed.

Lemma command_step_cs (command : Z) (s : mps_t) (cs : list mpschan_t) :
  command_step command s (set_cs cs s).
Proof. unfold command_step. cbn. auto 10. Qed.

Lemma lmp_process_command_step (s : mps_t) (chan : nat) (command val : Z) :
  0 <= val < 256 ->
  command_step command s (lmp_process_command s chan command val).
Proof.
  intros Hval. apply lmp_process_command_cases.
  - apply command_step_refl.
  - intros _. apply command_step_cs.
  - intros _. apply command_step_cs.
  - intros E. cbn [lmp_process_command]. cbv zeta.
    unfold command_step. case_if; cbn; repeat split; auto; right; right; lia.
  - intros _. apply command_step_cs.
  - intros _. cbn [lmp_process_command]. cbv zeta.
    case_if; [apply command_step_refl|].
    unfold command_step. cbn. repeat split; auto.
    right. left. split; [reflexivity|].
    assert (0 <= Z.land val 240) by (apply Z.land_nonneg; lia).
    assert (0 <= Z.shiftr (Z.land val 240) 4) by (apply Z.shiftr_nonneg; lia).
    assert (0 <= Z.land val 15) by (apply Z.land_nonneg; lia).
    lia.
  - intros _. cbn [lmp_process_command]. cbv zeta.
    unfold command_step.
    destruct (Z.gtb_spec val 0), (Z.ltb_spec val 31), (Z.geb_spec val 32);
      cbn [andb]; try lia;
      try (destruct (negb (mps_support_tempo _ =? 0)));
      cbn; repeat split; auto; try (right; lia).
    all: right; apply lmp_samps_from_tempo_range; lia.
Qed.

Lemma command_step_from_cs (command : Z) (s s' : mps_t) (cs : list mpschan_t) :
  command_step command (set_cs cs s) s' -> command_step command s s'.
Proof. unfold command_step. cbn. auto. Qed.

Lemma lmp_tick_chan_step (cf : Z) (chan : nat) (s : mps_t) :
  command_step
    (note_command (host_to_LE32 (load32 (mps_mod_data s) (cf + 4 * Z.of_nat chan))))
    s (lmp_tick_chan cf chan s).
Proof.
  unfold lmp_tick_chan. cbv zeta.
  case_if.
  - unfold lmp_tick_play, chan_set. cbv zeta.
    eapply command_step_from_cs.
    apply lmp_process_command_step, note_val_range.
  - unfold chan_upd, chan_set.
    eapply command_step_from_cs.
    apply lmp_process_command_step, note_val_range.
Qed.



Lemma song_length (s s' : mps_t) :
  song s' = song s -> mps_length s' = mps_length s.
Proof. unfold song. intros H. injection H. auto. Qed.

Lemma song_loop (s s' : mps_t) :
  song s' = song s -> mps_song_loop s' = mps_song_loop s.
Proof. unfold song. intros H. injection H. auto. Qed.

Lemma song_mod_data (s s' : mps_t) :
  song s' = song s -> mps_mod_data s' = mps_mod_data s.
Proof. unfold song. intros H. injection H. auto. Qed.

Lemma lmp_tick_inter_row_clocks (s : mps_t) :
  let s' := for_chans (fun chan => chan_upd chan lmp_tick_effect) s in
  song s' = song s /\ clocks s' = clocks s.
Proof.
  apply for_chans_ind; [split; reflexivity|].
  intros chan s' _ [H1 H2]. split; [rewrite <- H1 | rewrite <- H2]; reflexivity.
Qed.





Lemma lmp_render_samples_clocks (s : mps_t) :
  song (fst (lmp_render_samples s)) = song s /\
  clocks (fst (lmp_render_samples s)) = clocks s.
Proof.
  rewrite lmp_render_samples_state.
  apply for_chans_ind; [split; reflexivity|].
  intros chan s' _ [H1 H2]. split; [rewrite <- H1 | rewrite <- H2]; reflexivity.
Qed.








(** Repeated calls with one sample count [n > 0] and one mix mode. *)
Section EndOfSong.

Variables (n : Z) (mx : lmp_mix_t).
Hypothesis Hn : 0 < n.



End EndOfSong.


(** ** What a call's return value reports *)





Lemma lmp_tick_row_song (cf : Z) (s : mps_t) :
  song (for_chans (lmp_tick_chan cf) s) = song s.
Proof.
  apply for_chans_ind; [reflexivity|].
  intros chan s' _ H. rewrite <- H.
  apply (lmp_tick_chan_step cf chan s').
Qed.





(** ** A song that never ends: position jump to a later position *)











(** * Further properties of the code *)

(** ** Byte order *)

Ltac bits_done :=
  repeat match goal with
    | |- context [Z.testbit ?y ?j] => rewrite (Z.testbit_neg_r y j) by lia
    end;
  try (exfalso; lia); try btauto.

Lemma BS16_load16_bits (x0 x1 : Z) :
  Z.lor (Z.land (Z.shiftr (Z.lor (x0 mod 2 ^ 8) (Z.shiftl (x1 mod 2 ^ 8) 8)) 8)
                (Z.ones 8))
        (Z.land (Z.shiftl (Z.lor (x0 mod 2 ^ 8) (Z.shiftl (x1 mod 2 ^ 8) 8)) 8)
                (Z.shiftl (Z.ones 8) 8))
  = Z.lor (x1 mod 2 ^ 8) (Z.shiftl (x0 mod 2 ^ 8) 8).
Proof.
  Z.bitblast. all: bits_done.
Qed.

Lemma lor_shiftl_bytes (lo hi : Z) :
  Z.lor (lo mod 2 ^ 8) (Z.shiftl (hi mod 2 ^ 8) 8)
  = 256 * (hi mod 2 ^ 8) + lo mod 2 ^ 8.
Proof.
  rewrite Z.or_to_plus.
  - rewrite Z.shiftl_mul_pow2 by lia. change (2 ^ 8) with 256. lia.
  - apply Z.bits_inj'. intros n Hn.
    rewrite Z.land_spec, Z.bits_0.
    destruct (Z.lt_ge_cases n 8).
    + rewrite Z.shiftl_spec_low by lia. apply andb_false_r.
    + rewrite Z.mod_pow2_bits_high by lia. reflexivity.
Qed.

Lemma halfword_bytes (x : Z) :
  0 <= x < 65536 ->
  x = Z.lor (x mod 2 ^ 8) (Z.shiftl ((x / 2 ^ 8) mod 2 ^ 8) 8).
Proof.
  intros Hx. rewrite lor_shiftl_bytes. change (2 ^ 8) with 256.
  rewrite (Z.mod_small (x / 256)) by (split; [apply Z.div_pos; lia | apply Z.div_lt_upper_bound; lia]).
  pose proof (Z.div_mod x 256 ltac:(lia)). lia.
Qed.

Lemma BS16_value (x : Z) :
  0 <= x < 65536 -> BS16 x = 256 * (x mod 256) + x / 256.
Proof.
  intros Hx. unfold BS16. change 0xff with (Z.ones 8).
  change 0xff00 with (Z.shiftl (Z.ones 8) 8).
  rewrite (halfword_bytes x Hx) at 1 2.
  rewrite BS16_load16_bits, lor_shiftl_bytes. change (2 ^ 8) with 256.
  rewrite (Z.mod_small (x / 256)) by (split; [apply Z.div_pos; lia | apply Z.div_lt_upper_bound; lia]).
  reflexivity.
Qed.

Lemma BE_to_host16_load16 (m : blob) (off : Z) :
  BE_to_host16 (load16 m off) = 256 * load8 m off + load8 m (off + 1).
Proof.
  unfold BE_to_host16, BS16, load16, load8, u8.
  change 256 with (2 ^ 8) at 1 2 4 5. change 0xff with (Z.ones 8).
  change 0xff00 with (Z.shiftl (Z.ones 8) 8).
  rewrite BS16_load16_bits, lor_shiftl_bytes. reflexivity.
Qed.

(** X1. [BS16] swaps the two bytes of a halfword: applied twice it gives the
    halfword back, and applied to a halfword read by the little-endian host
    it gives the big-endian value of the two bytes in file order. *)
Theorem BS16_swaps_bytes (m : blob) (off x : Z) :
  0 <= x < 65536 ->
  BS16 (BS16 x) = x /\
  BE_to_host16 (load16 m off) = 256 * load8 m off + load8 m (off + 1).
Proof.
  intros Hx. split.
  - pose proof (Z.mod_pos_bound x 256 ltac:(lia)).
    assert (0 <= x / 256 < 256)
      by (split; [apply Z.div_pos; lia | apply Z.div_lt_upper_bound; lia]).
    rewrite (BS16_value x Hx). rewrite BS16_value by lia.
    pose proof (Z.div_mod x 256 ltac:(lia)).
    replace ((256 * (x mod 256) + x / 256) mod 256) with (x / 256).
    2:{ rewrite Z.add_comm, Z.mul_comm, Z.mod_add by lia. symmetry. apply Z.mod_small. lia. }
    replace ((256 * (x mod 256) + x / 256) / 256) with (x mod 256).
    2:{ rewrite Z.add_comm, Z.mul_comm, Z.div_add by lia. rewrite (Z.div_small (x / 256)) by lia. lia. }
    lia.
  - apply BE_to_host16_load16.
Qed.

Lemma BS16_swaps_bytes_witness :
  0 <= 0x1234 < 65536 /\
  BS16 (BS16 0x1234) = 0x1234 /\
  BE_to_host16 (load16 zero_blob 0) = 256 * load8 zero_blob 0 + load8 zero_blob (0 + 1).
Proof. split; [lia | apply (BS16_swaps_bytes zero_blob 0 0x1234); lia]. Defined.

(** ** The other fields of a pattern cell *)

Lemma note_freq_bits (x0 x1 x2 x3 : Z) :
  (Z.lor
     (Z.land
        ((Z.shiftl
            (Z.lor (Z.lor (x0 mod 2 ^ 8) (Z.shiftl (x1 mod 2 ^ 8) 8))
                   (Z.lor (Z.shiftl (x2 mod 2 ^ 8) 16)
                          (Z.shiftl (x3 mod 2 ^ 8) 24))) 8) mod 2 ^ 32)
        (Z.shiftl (Z.ones 4) 8))
     (Z.land
        (Z.shiftr
           (Z.lor (Z.lor (x0 mod 2 ^ 8) (Z.shiftl (x1 mod 2 ^ 8) 8))
                  (Z.lor (Z.shiftl (x2 mod 2 ^ 8) 16)
                         (Z.shiftl (x3 mod 2 ^ 8) 24))) 8) (Z.ones 8)))
  mod 2 ^ 16
  = Z.lor (Z.shiftl (Z.land (x0 mod 2 ^ 8) (Z.ones 4)) 8) (x1 mod 2 ^ 8).
Proof. Z.bitblast. all: bits_done. Qed.

Lemma note_command_bits (x0 x1 x2 x3 : Z) :
  (Z.land
     (Z.shiftr
        (Z.lor (Z.lor (x0 mod 2 ^ 8) (Z.shiftl (x1 mod 2 ^ 8) 8))
               (Z.lor (Z.shiftl (x2 mod 2 ^ 8) 16)
                      (Z.shiftl (x3 mod 2 ^ 8) 24))) 16) (Z.ones 4))
  mod 2 ^ 8
  = Z.land (x2 mod 2 ^ 8) (Z.ones 4).
Proof. Z.bitblast. all: bits_done. Qed.

Lemma note_val_bits (x0 x1 x2 x3 : Z) :
  (Z.shiftr
     (Z.lor (Z.lor (x0 mod 2 ^ 8) (Z.shiftl (x1 mod 2 ^ 8) 8))
            (Z.lor (Z.shiftl (x2 mod 2 ^ 8) 16)
                   (Z.shiftl (x3 mod 2 ^ 8) 24))) 24)
  mod 2 ^ 8
  = x3 mod 2 ^ 8.
Proof. Z.bitblast. all: bits_done. Qed.

(** X2. With [b0 b1 b2 b3] the bytes of a cell in file order, the row tick
    decodes the period as the 12-bit number [(b0 & 0x0f) << 8 | b1], the
    effect number as [b2 & 0x0f] and the effect parameter as [b3]. *)
Theorem note_fields_decode (m : blob) (off : Z) :
  let note := host_to_LE32 (load32 m off) in
  note_freq note = Z.lor (Z.shiftl (Z.land (load8 m off) 0x0f) 8) (load8 m (off + 1)) /\
  note_command note = Z.land (load8 m (off + 2)) 0x0f /\
  note_val note = load8 m (off + 3) /\
  0 <= note_freq note < 4096 /\ 0 <= note_command note < 16.
Proof.
  cbv zeta.
  assert (Hf : note_freq (host_to_LE32 (load32 m off))
               = Z.lor (Z.shiftl (Z.land (load8 m off) 0x0f) 8) (load8 m (off + 1))).
  { unfold note_freq, host_to_LE32, load32, load8, u8, u16, u32.
    change 256 with (2 ^ 8). change 65536 with (2 ^ 16).
    change 4294967296 with (2 ^ 32). change 0xf00 with (Z.shiftl (Z.ones 4) 8).
    change 0xff with (Z.ones 8). change 0x0f with (Z.ones 4).
    apply note_freq_bits. }
  assert (Hc : note_command (host_to_LE32 (load32 m off))
               = Z.land (load8 m (off + 2)) 0x0f).
  { unfold note_command, host_to_LE32, load32, load8, u8.
    change 256 with (2 ^ 8). change 0xf with (Z.ones 4). change 0x0f with (Z.ones 4).
    apply note_command_bits. }
  split; [exact Hf|]. split; [exact Hc|]. split.
  - unfold note_val, host_to_LE32, load32, load8, u8.
    change 256 with (2 ^ 8). apply note_val_bits.
  - rewrite Hf, Hc. change 0x0f with (Z.ones 4). rewrite !Z.land_ones by lia.
    pose proof (Z.mod_pos_bound (load8 m off) (2 ^ 4) ltac:(lia)).
    pose proof (Z.mod_pos_bound (load8 m (off + 2)) (2 ^ 4) ltac:(lia)).
    pose proof (load8_range m (off + 1)).
    split; [|lia].
    assert (E : Z.lor (Z.shiftl (load8 m off mod 2 ^ 4) 8) (load8 m (off + 1))
                = 256 * (load8 m off mod 2 ^ 4) + load8 m (off + 1)).
    { rewrite Z.lor_comm.
      rewrite <- (Z.mod_small (load8 m (off + 1)) (2 ^ 8)) by (change (2 ^ 8) with 256; lia).
      rewrite <- (Z.mod_small (load8 m off mod 2 ^ 4) (2 ^ 8)) at 1 by (change (2 ^ 8) with 256; change (2 ^ 4) with 16 in *; lia).
      rewrite lor_shiftl_bytes.
      rewrite (Z.mod_small (load8 m off mod 2 ^ 4) (2 ^ 8)) by (change (2 ^ 8) with 256; change (2 ^ 4) with 16 in *; lia).
      reflexivity. }
    rewrite E. change (2 ^ 4) with 16 in *. lia.
Qed.

(** ** Format detection and layout *)

Lemma strncmp_MK_zero (m : blob) :
  strncmp_MK m 0x438 = 0 <-> has_magic m.
Proof.
  unfold strncmp_MK, has_magic, magic_MK. cbn [combine forallb].
  replace (0x438 + 0) with 0x438 by lia.
  change (0x438 + 1) with 0x439. change (0x438 + 2) with 0x43a.
  change (0x438 + 3) with 0x43b.
  destruct (Z.eqb_spec (load8 m 0x438) 77), (Z.eqb_spec (load8 m 0x439) 46),
    (Z.eqb_spec (load8 m 0x43a) 75), (Z.eqb_spec (load8 m 0x43b) 46);
    cbn [andb]; split; intros H; try discriminate; try tauto.
Qed.

(** X3. [lmp_init] takes the module for a 31-instrument one exactly when the
    four bytes at 0x438 are [M.K.]; the length byte, the sequence table and
    the patterns are then read at 0x3b6, 0x3b8 and 0x43c, and otherwise (15
    instruments) at 0x1d6, 0x1d8 and 0x258.  [lmp_get_length] returns that
    length byte. *)
Theorem lmp_init_format (mps : mps_t) (m : blob) :
  let s := fst (lmp_init mps m) in
  (has_magic m ->
   mps_thirtyone s = 1 /\ module_instruments m = 31%nat /\
   lmp_get_length s = load8 m 0x3b6 /\
   mps_sequence s = 0x3b8 /\ mps_patterns s = 0x43c) /\
  (~ has_magic m ->
   mps_thirtyone s = 0 /\ module_instruments m = 15%nat /\
   lmp_get_length s = load8 m 0x1d6 /\
   mps_sequence s = 0x1d8 /\ mps_patterns s = 0x258) /\
  0 <= lmp_get_length s < 256 /\
  mps_instruments s = 0x14 /\ mps_mod_data s = m.
Proof.
  cbv zeta. unfold module_instruments, lmp_get_length.
  pose proof (strncmp_MK_zero m) as Hm.
  change 1080 with 0x438. unfold lmp_init.
  destruct (Z.eqb_spec (strncmp_MK m 0x438) 0) as [E | E].
  - rewrite E. cbn [lnot Z.eqb fst mps_thirtyone mps_length mps_sequence
                    mps_patterns mps_instruments mps_mod_data num_instruments].
    split; [|split].
    + intros _. repeat split; reflexivity.
    + intros Hn. exfalso. apply Hn, Hm, E.
    + split; [apply load8_range|]. split; reflexivity.
  - assert (E1 : strncmp_MK m 0x438 = 1).
    { unfold strncmp_MK in *. destruct (forallb _ _); congruence. }
    rewrite E1. cbn [lnot Z.eqb fst mps_thirtyone mps_length mps_sequence
                     mps_patterns mps_instruments mps_mod_data num_instruments].
    split; [|split].
    + intros Hn. exfalso. apply E, Hm, Hn.
    + intros _. repeat split; reflexivity.
    + split; [apply load8_range|]. split; reflexivity.
Qed.

(** ** Layout of the sample data *)

Lemma max_patt_fold (m : blob) (sequence : Z) (l : list Z) :
  forall a,
    let r := fold_left (fun mx i => if load8 m (sequence + i) >? mx
                                    then load8 m (sequence + i) else mx) l a in
    a <= r /\
    (forall i, In i l -> load8 m (sequence + i) <= r) /\
    (r = a \/ exists i, In i l /\ r = load8 m (sequence + i)).
Proof.
  induction l as [|x l IH]; intros a; cbn [fold_left].
  - cbv zeta. split; [lia|]. split; [intros i []|]. left; reflexivity.
  - cbv zeta. specialize (IH (if load8 m (sequence + x) >? a
                              then load8 m (sequence + x) else a)).
    cbv zeta in IH. destruct IH as (Hge & Hall & Hex).
    destruct (Z.gtb_spec (load8 m (sequence + x)) a) as [Hgt | Hle].
    + split; [lia|]. split.
      * intros i [-> | Hi]; [lia | apply Hall, Hi].
      * right. destruct Hex as [-> | (i & Hi & ->)].
        -- exists x. split; [left; reflexivity | reflexivity].
        -- exists i. split; [right; exact Hi | reflexivity].
    + split; [lia|]. split.
      * intros i [-> | Hi]; [lia | apply Hall, Hi].
      * destruct Hex as [-> | (i & Hi & ->)]; [left; reflexivity|].
        right. exists i. split; [right; exact Hi | reflexivity].
Qed.

Lemma lmp_init_inst_layout (m : blob) (n : nat) :
  forall (l0 : list mpsamp_t) (p0 : Z),
    (n <= length l0)%nat ->
    let r := fold_left (lmp_init_inst m 20) (seq 0 n) (l0, p0) in
    length (fst r) = length l0 /\
    (forall i, (i < n)%nat ->
               i_len (fst r !!! i) = u16 (header_length m i * 2)) /\
    ((0 < n)%nat -> i_sample (fst r !!! 0%nat) = p0) /\
    (forall i, (S i < n)%nat ->
               i_sample (fst r !!! S i)
               = i_sample (fst r !!! i) + i_len (fst r !!! i)) /\
    snd r = match n with
            | O => p0
            | S k => i_sample (fst r !!! k) + i_len (fst r !!! k)
            end.
Proof.
  induction n as [|n IH]; intros l0 p0 Hn.
  - cbn. split; [reflexivity|]. repeat split; intros; lia.
  - rewrite seq_S, fold_left_app. cbn [fold_left Nat.add].
    destruct (IH l0 p0 ltac:(lia)) as (Hl & Hlen & H0 & Hadj & Hlast).
    destruct (fold_left (lmp_init_inst m 20) (seq 0 n) (l0, p0)) as [l p].
    cbn [fst snd] in *. unfold lmp_init_inst. cbn [fst snd].
    split; [rewrite length_insert; exact Hl|].
    split; [|split; [|split]].
    + intros i Hi. destruct (decide (i = n)) as [-> | Hne].
      * rewrite list_lookup_total_insert_eq by lia. cbn [i_len].
        rewrite BE_to_host16_load16. unfold header_length.
        replace (20 + Z.of_nat n * 30 + 2 * (10 + 1)) with (20 + 30 * Z.of_nat n + 22) by lia.
        replace (20 + 30 * Z.of_nat n + 22 + 1) with (20 + 30 * Z.of_nat n + 23) by lia.
        reflexivity.
      * rewrite list_lookup_total_insert_ne by congruence. apply Hlen. lia.
    + intros _. destruct n as [|n].
      * rewrite list_lookup_total_insert_eq by lia. cbn [i_sample]. exact Hlast.
      * rewrite list_lookup_total_insert_ne by lia. apply H0. lia.
    + intros i Hi. destruct (decide (S i = n)) as [<- | Hne].
      * rewrite list_lookup_total_insert_eq by lia.
        rewrite list_lookup_total_insert_ne by lia. cbn [i_sample]. exact Hlast.
      * rewrite !list_lookup_total_insert_ne by lia. apply Hadj. lia.
    + rewrite list_lookup_total_insert_eq by lia. reflexivity.
Qed.

(** X4. The loader lays the samples out back to back behind the patterns: the
    first sample starts right after the highest-numbered pattern that any
    of the 128 sequence bytes names (so every such pattern lies before the
    sample data), each following sample starts where the one before ends,
    and a sample's length is twice the big-endian halfword of its header,
    kept to 16 bits. *)
Theorem lmp_init_sample_layout (mps : mps_t) (m : blob) :
  mps_wf mps ->
  let s := fst (lmp_init mps m) in
  let first := i_sample (mps_inst s !!! 0%nat) in
  (forall k, 0 <= k < 128 ->
     mps_patterns s + 1024 * (load8 m (mps_sequence s + k) + 1) <= first) /\
  (exists k, 0 <= k < 128 /\
     first = mps_patterns s + 1024 * (load8 m (mps_sequence s + k) + 1)) /\
  (forall i, (i < module_instruments m)%nat ->
     i_len (mps_inst s !!! i) = u16 (header_length m i * 2)) /\
  (forall i, (S i < module_instruments m)%nat ->
     i_sample (mps_inst s !!! S i)
     = i_sample (mps_inst s !!! i) + i_len (mps_inst s !!! i)).
Proof.
  intros [Hinst _]. cbv zeta. unfold module_instruments, lmp_init.
  destruct (lnot (strncmp_MK m 1080) =? 0) eqn:E31;
    cbn [fst mps_inst mps_patterns mps_sequence].
  all: match goal with
       | |- context [fold_left (lmp_init_inst ?b 20) (seq 0 ?n) (?l, ?p)] =>
           destruct (lmp_init_inst_layout b n l p) as (_ & Hlen & H0 & Hadj & _);
             [unfold num_instruments; destruct (_ =? 0); lia|];
             rewrite H0 by (unfold num_instruments; destruct (_ =? 0); lia)
       end.
  1: destruct (max_patt_fold m 0x1d8 (seqZ 0 128) 0) as (Hge & Hall & Hex).
  2: destruct (max_patt_fold m 0x3b8 (seqZ 0 128) 0) as (Hge & Hall & Hex).
  all: cbv zeta in Hge, Hall, Hex.
  all: split; [|split; [|split; [exact Hlen | exact Hadj]]].
  all: try (intros k Hk;
            specialize (Hall k ltac:(apply list_elem_of_In, elem_of_seqZ; lia)); lia).
  all: destruct Hex as [Hz | (i & Hi & Hr)].
  all: try (apply list_elem_of_In, elem_of_seqZ in Hi; exists i; split; [lia|];
            rewrite <- Hr; lia).
  all: exists 0; split; [lia|];
       specialize (Hall 0 ltac:(apply list_elem_of_In, elem_of_seqZ; lia));
       pose proof (load8_range m (0x1d8 + 0)); pose proof (load8_range m (0x3b8 + 0));
       rewrite Hz in *; lia.
Qed.

Lemma lmp_init_sample_layout_witness :
  mps_wf mps_blank /\
  let s := fst (lmp_init mps_blank zero_blob) in
  let first := i_sample (mps_inst s !!! 0%nat) in
  (forall k, 0 <= k < 128 ->
     mps_patterns s + 1024 * (load8 zero_blob (mps_sequence s + k) + 1) <= first) /\
  (exists k, 0 <= k < 128 /\
     first = mps_patterns s + 1024 * (load8 zero_blob (mps_sequence s + k) + 1)) /\
  (forall i, (i < module_instruments zero_blob)%nat ->
     i_len (mps_inst s !!! i) = u16 (header_length zero_blob i * 2)) /\
  (forall i, (S i < module_instruments zero_blob)%nat ->
     i_sample (mps_inst s !!! S i)
     = i_sample (mps_inst s !!! i) + i_len (mps_inst s !!! i)).
Proof.
  split; [split; reflexivity|].
  apply (lmp_init_sample_layout mps_blank zero_blob). split; reflexivity.
Defined.

(** ** Phase increments of the playable periods *)

(** X5. Over the periods the portamento clamps keep (113 to 856) the phase
    increment falls as the period grows and stays between 385 and 2922: a
    voice advances by less than one source byte (4096) per output frame. *)
Theorem lmp_pi_from_pitch_antitone (p q : Z) :
  113 <= p -> p <= q -> q <= 856 ->
  385 <= lmp_pi_from_pitch q /\
  lmp_pi_from_pitch q <= lmp_pi_from_pitch p /\
  lmp_pi_from_pitch p <= 2922.
Proof.
  intros Hp Hpq Hq. unfold lmp_pi_from_pitch.
  change (Z.shiftl 1 SAMP_FP_SPLIT * 254 * 14000 / LMP_SAMPLERATE) with 330280.
  assert (Hlo : 385 <= 330280 / q).
  { change 385 with (330280 / 856). apply Z.div_le_compat_l; lia. }
  assert (Hmid : 330280 / q <= 330280 / p) by (apply Z.div_le_compat_l; lia).
  assert (Hhi : 330280 / p <= 2922).
  { change 2922 with (330280 / 113). apply Z.div_le_compat_l; lia. }
  rewrite !u32_small by lia. lia.
Qed.

Lemma lmp_pi_from_pitch_antitone_witness :
  113 <= 428 /\ 428 <= 856 /\ 856 <= 856 /\
  385 <= lmp_pi_from_pitch 856 /\
  lmp_pi_from_pitch 856 <= lmp_pi_from_pitch 428 /\
  lmp_pi_from_pitch 428 <= 2922.
Proof.
  split; [lia|]. split; [lia|]. split; [lia|].
  apply (lmp_pi_from_pitch_antitone 428 856); lia.
Defined.

(** ** What holds in every state the player reaches *)

(** A property of the player state that rendering and the tick clock keep
    is kept by the mixer loops and by [lmp_fill_buffer]. *)
Section FrameInvariant.

Variable P : mps_t -> Prop.
Hypothesis P_render : forall s, P s -> P (fst (lmp_render_samples s)).
Hypothesis P_check : forall s, P s -> P (fst (lmp_check_for_tick s)).

Lemma inv_frame (mx : lmp_mix_t) (s : mps_t) :
  P s -> P (fst (fst (lmp_frame mx s))).
Proof.
  intros H. unfold lmp_frame.
  pose proof (P_render s H) as H1.
  destruct (lmp_render_samples s) as [s1 csamp]. cbn [fst] in H1.
  pose proof (P_check s1 H1) as H2.
  destruct (lmp_check_for_tick s1) as [s2 d]. exact H2.
Qed.

Lemma inv_fill_loop (mx : lmp_mix_t) (iters : nat) :
  forall s samples done,
    P s -> P (fst (fst (lmp_fill_loop mx iters s samples done))).
Proof.
  induction iters as [|k IH]; intros s samples done H; [exact H|].
  cbn [lmp_fill_loop].
  pose proof (inv_frame mx s H) as H1.
  destruct (lmp_frame mx s) as [[s1 out] d]. apply IH, H1.
Qed.

Lemma inv_fill_buffer (s : mps_t) (n mix_type : Z) :
  P s -> P (fst (fst (lmp_fill_buffer s n mix_type))).
Proof.
  intros H. unfold lmp_fill_buffer, lmp_fill_buffer_mono,
    lmp_fill_buffer_stereo_hard, lmp_fill_buffer_stereo_soft,
    lmp_fill_buffer_mix.
  repeat case_if; try exact H.
  all: match goal with
       | |- context [lmp_fill_loop ?mx ?i ?s0 [] 0] =>
           pose proof (inv_fill_loop mx i s0 [] 0 H) as H1;
           destruct (lmp_fill_loop mx i s0 [] 0) as [[s1 out] d]; exact H1
       end.
Qed.

End FrameInvariant.

Lemma player_inv_ext (s s' : mps_t) :
  song s' = song s -> clocks s' = clocks s -> player_inv s -> player_inv s'.
Proof.
  intros Hs Hc. pose proof (song_length _ _ Hs) as El.
  unfold clocks in Hc. injection Hc as E1 E2 E3 E4 E5 E6.
  unfold player_inv. rewrite El, E1, E2, E3, E4, E5, E6. auto.
Qed.

Lemma row_bounds_step (s0 s' s'' : mps_t) (command : Z) :
  row_bounds s0 s' -> command_step command s' s'' -> row_bounds s0 s''.
Proof.
  intros (Hsong & Hsc & Hpos & Hpp & Hsp & Htc & Hspt)
         (Csong & Csc & Cpos & Cclk & Cspt).
  pose proof (u32_range (mps_pos s' + 1)) as Hu.
  unfold row_bounds. repeat split; try congruence; try lia.
Qed.

Lemma lmp_tick_row_bounds (cf : Z) (s : mps_t) :
  player_inv s ->
  let s0 := set_pos_pattern (u32 (mps_pos_pattern s + 1))
                            (set_tick_counter (mps_speed s) s) in
  row_bounds s0 (for_chans (lmp_tick_chan cf) s0).
Proof.
  intros (Hlen & Hpos & Hpp & Hsp & Htc & Hspt & Hsc) s0.
  apply for_chans_ind.
  - unfold row_bounds, s0. cbn. rewrite u32_small by lia.
    repeat split; lia.
  - intros chan s' _ Hrel. eapply row_bounds_step; [exact Hrel|].
    apply lmp_tick_chan_step.
Qed.

Lemma lmp_tick_advance_inv (s0 s1 : mps_t) :
  0 <= mps_length s0 < 256 -> 1 <= mps_sample_counter s0 <= SPT_MAX ->
  row_bounds s0 s1 ->
  player_inv (fst (lmp_tick_advance s1)) /\
  song (fst (lmp_tick_advance s1)) = song s0.
Proof.
  intros Hlen Hsc (Rsong & Rsc & Rpos & Rpp & Rsp & Rtc & Rspt).
  pose proof (song_length _ _ Rsong) as El.
  pose proof (u32_range (mps_pos s1 + 1)) as Hu.
  unfold lmp_tick_advance, player_inv. cbv zeta.
  repeat (case_if; cbn [fst mps_pos mps_length mps_pos_pattern mps_song_loop
                          set_pos set_pos_pattern mps_speed mps_tick_counter
                          mps_samples_per_tick mps_sample_counter] in *).
  all: split; [|rewrite <- Rsong; reflexivity].
  all: repeat split; try lia.
Qed.

Lemma lmp_tick_player_inv (s : mps_t) :
  player_inv s ->
  player_inv (fst (lmp_tick s)) /\ song (fst (lmp_tick s)) = song s.
Proof.
  intros Hinv. pose proof Hinv as (Hlen & Hpos & Hpp & Hsp & Htc & Hspt & Hsc).
  unfold lmp_tick. destruct (Z.gtb_spec (mps_tick_counter s) 1) as [Hgt | Hle].
  - destruct (lmp_tick_inter_row_clocks s) as [Es Ec]. cbv zeta in Es, Ec.
    cbn [fst]. split; [|rewrite <- Es; reflexivity].
    pose proof (player_inv_ext _ _ Es Ec Hinv) as (L & Po & Pp & Sp & Tc & Spt & Sc).
    assert (E4 : mps_tick_counter
                   (for_chans (fun chan => chan_upd chan lmp_tick_effect) s)
                 = mps_tick_counter s) by reflexivity.
    rewrite E4 in *. rewrite u32_small by lia.
    unfold player_inv.
    cbn [mps_length mps_pos mps_pos_pattern mps_speed mps_tick_counter
         mps_samples_per_tick mps_sample_counter set_tick_counter].
    repeat split; try lia; exact Po.
  - cbv zeta.
    pose proof (lmp_tick_row_bounds
                  (lmp_tick_frame (set_tick_counter (mps_speed s) s)) s Hinv) as Hrow.
    cbv zeta in Hrow.
    apply lmp_tick_advance_inv in Hrow; [exact Hrow | exact Hlen | exact Hsc].
Qed.

Lemma lmp_render_samples_player_inv (s : mps_t) :
  player_inv s -> player_inv (fst (lmp_render_samples s)).
Proof.
  destruct (lmp_render_samples_clocks s) as [Es Ec].
  apply player_inv_ext; assumption.
Qed.

Lemma lmp_check_for_tick_player_inv (s : mps_t) :
  player_inv s -> player_inv (fst (lmp_check_for_tick s)).
Proof.
  intros Hinv. pose proof Hinv as (Hlen & Hpos & Hpp & Hsp & Htc & Hspt & Hsc).
  unfold lmp_check_for_tick. cbv zeta.
  cbn [mps_sample_counter mps_samples_per_tick set_sample_counter].
  rewrite u32_small by (unfold SPT_MAX in *; lia).
  destruct (Z.eqb_spec (mps_sample_counter s - 1) 0) as [E | E].
  - apply lmp_tick_player_inv. unfold player_inv. cbn.
    repeat split; try lia; exact Hpos.
  - cbn [fst]. unfold player_inv. cbn. repeat split; try lia; exact Hpos.
Qed.

Lemma lmp_init_player_inv (mps : mps_t) (m : blob) :
  player_inv (fst (lmp_init mps m)).
Proof.
  unfold lmp_init, player_inv.
  destruct (lnot (strncmp_MK m 1080) =? 0); cbn.
  all: rewrite lmp_samps_from_tempo_125; unfold SPT_MAX.
  all: pose proof (load8_range m 470); pose proof (load8_range m 950).
  all: repeat split; try lia.
Qed.

Lemma lmp_do_player_inv (s : mps_t) (c : lmp_call) :
  call_ok c -> player_inv s -> player_inv (lmp_do s c).
Proof.
  intros Hc Hinv. destruct c as [n mx | o v | p]; cbn [lmp_do call_ok] in *.
  - apply inv_fill_buffer;
      auto using lmp_render_samples_player_inv, lmp_check_for_tick_player_inv.
  - unfold lmp_set_option.
    destruct o as [|[q|q|]|]; exact Hinv.
  - destruct Hinv as (Hlen & Hpos & Hpp & Hsp & Htc & Hspt & Hsc).
    unfold lmp_set_pos. case_if; unfold player_inv; cbn; repeat split; try lia.
    all: try exact Hpos. all: left; lia.
Qed.

(** X6. For every module, whatever the caller's struct held before [lmp_init]
    and whatever calls follow (buffers of any size and mix, options, seeks):
    the position stays inside the song (or is 0), the row stays in 0..63,
    the speed in 1..30, the tick counter in 0..30, and the samples per tick
    and the sample counter in 1..3445, so the tick clock never stalls. *)
Theorem player_invariant (mps : mps_t) (m : blob) (calls : list lmp_call) :
  Forall call_ok calls ->
  player_inv (lmp_run (fst (lmp_init mps m)) calls).
Proof.
  intros Hcalls. pose proof (lmp_init_player_inv mps m) as H0.
  revert H0. generalize (fst (lmp_init mps m)). unfold lmp_run.
  induction Hcalls as [|c calls Hc _ IH]; intros s Hs; [exact Hs|].
  cbn [fold_left]. apply IH, lmp_do_player_inv; assumption.
Qed.

Lemma player_invariant_witness :
  Forall call_ok [FillBuffer 4410 LMP_MONO; SetPos 0; SetOption 1 0;
                  FillBuffer 100 LMP_STEREO_SOFT] /\
  player_inv (lmp_run (fst (lmp_init mps_blank zero_blob))
                [FillBuffer 4410 LMP_MONO; SetPos 0; SetOption 1 0;
                 FillBuffer 100 LMP_STEREO_SOFT]).
Proof.
  assert (H : Forall call_ok [FillBuffer 4410 LMP_MONO; SetPos 0; SetOption 1 0;
                              FillBuffer 100 LMP_STEREO_SOFT]).
  { repeat constructor; simpl; lia. }
  split; [exact H|].
  apply (player_invariant mps_blank zero_blob _ H).
Defined.

(** ** A looping song never reports its end *)











(** ** Tempo changes switched off *)

Lemma tempo_state_off (s s' : mps_t) :
  tempo_state s' = tempo_state s -> mps_support_tempo s = 0 ->
  mps_support_tempo s' = 0.
Proof. unfold tempo_state. intros H E. injection H. intros. congruence. Qed.

Lemma lmp_process_command_tempo_off (s : mps_t) (chan : nat) (command val : Z) :
  mps_support_tempo s = 0 ->
  tempo_state (lmp_process_command s chan command val) = tempo_state s.
Proof.
  intros Hoff. apply lmp_process_command_cases.
  - reflexivity.
  - intros _. reflexivity.
  - intros _. reflexivity.
  - intros _. cbn [lmp_process_command]. cbv zeta. case_if; reflexivity.
  - intros _. reflexivity.
  - intros _. cbn [lmp_process_command]. cbv zeta. case_if; reflexivity.
  - intros _. cbn [lmp_process_command]. cbv zeta.
    destruct ((val >? 0) && (val <? 31));
      cbn [mps_support_tempo set_tick_counter set_speed];
      rewrite Hoff; cbn [Z.eqb negb]; case_if; reflexivity.
Qed.

Lemma lmp_tick_chan_tempo_off (cf : Z) (chan : nat) (s : mps_t) :
  mps_support_tempo s = 0 ->
  tempo_state (lmp_tick_chan cf chan s) = tempo_state s.
Proof.
  intros Hoff. unfold lmp_tick_chan. cbv zeta.
  case_if; rewrite lmp_process_command_tempo_off; try reflexivity; exact Hoff.
Qed.

Lemma lmp_tick_advance_tempo (s : mps_t) :
  tempo_state (fst (lmp_tick_advance s)) = tempo_state s.
Proof.
  unfold lmp_tick_advance. cbv zeta.
  repeat (case_if; cbn [fst mps_pos mps_length mps_song_loop set_pos
                          set_pos_pattern]); reflexivity.
Qed.

Lemma lmp_tick_tempo_off (s : mps_t) :
  mps_support_tempo s = 0 -> tempo_state (fst (lmp_tick s)) = tempo_state s.
Proof.
  intros Hoff. unfold lmp_tick. case_if; cbv zeta; cbn [fst].
  - apply (for_chans_ind (fun s' => tempo_state s' = tempo_state s));
      [reflexivity|]. intros chan s' _ H. rewrite <- H. reflexivity.
  - transitivity
      (tempo_state
         (for_chans (lmp_tick_chan (lmp_tick_frame (set_tick_counter (mps_speed s) s)))
            (set_pos_pattern (u32 (mps_pos_pattern (set_tick_counter (mps_speed s) s) + 1))
               (set_tick_counter (mps_speed s) s)))).
    + apply lmp_tick_advance_tempo.
    + apply (for_chans_ind (fun s' => tempo_state s' = tempo_state s));
        [reflexivity|].
      intros chan s' _ H. rewrite <- H. apply lmp_tick_chan_tempo_off.
      apply (tempo_state_off s s' H Hoff).
Qed.

Lemma tempo_off_render (T : Z * Z * Z) (s : mps_t) :
  tempo_state s = T -> tempo_state (fst (lmp_render_samples s)) = T.
Proof.
  intros <-. rewrite lmp_render_samples_state.
  apply (for_chans_ind (fun s' => tempo_state s' = tempo_state s));
    [reflexivity|]. intros chan s' _ H. rewrite <- H. reflexivity.
Qed.

Lemma tempo_off_check (t sp : Z) (s : mps_t) :
  tempo_state s = (0, t, sp) ->
  tempo_state (fst (lmp_check_for_tick s)) = (0, t, sp).
Proof.
  intros H. unfold lmp_check_for_tick. cbv zeta. case_if; [|exact H].
  rewrite lmp_tick_tempo_off; [exact H|].
  unfold tempo_state in H. injection H. intros _ _ E. exact E.
Qed.

(** X8. Once [LMP_OPT_SUPPORT_TEMPO] is switched off after [lmp_init], no effect
    of any module changes the tempo: it stays 125 and a tick stays 882
    output frames, whatever is played or sought afterwards. *)
Theorem tempo_off_is_fixed (mps : mps_t) (m : blob) (calls : list lmp_call) :
  Forall (fun c => sets_option LMP_OPT_SUPPORT_TEMPO c = false) calls ->
  let s := lmp_run (lmp_set_option (fst (lmp_init mps m)) LMP_OPT_SUPPORT_TEMPO 0)
                   calls in
  mps_support_tempo s = 0 /\ mps_tempo s = 125 /\
  mps_samples_per_tick s = SAMPLES_PER_TICK.
Proof.
  intros Hcalls. cbv zeta.
  assert (H : tempo_state
                (lmp_run (lmp_set_option (fst (lmp_init mps m)) LMP_OPT_SUPPORT_TEMPO 0)
                         calls) = (0, 125, 882)).
  { assert (H0 : tempo_state
                   (lmp_set_option (fst (lmp_init mps m)) LMP_OPT_SUPPORT_TEMPO 0)
                 = (0, 125, 882)).
    { unfold lmp_init. destruct (_ =? 0); reflexivity. }
    revert H0.
    generalize (lmp_set_option (fst (lmp_init mps m)) LMP_OPT_SUPPORT_TEMPO 0).
    unfold lmp_run.
    induction Hcalls as [|c calls Hc _ IH]; intros s Hs; [exact Hs|].
    cbn [fold_left]. apply IH.
    destruct c as [k mx' | o v | p]; cbn [lmp_do sets_option] in *.
    - apply (inv_fill_buffer (fun s => tempo_state s = (0, 125, 882))
               (tempo_off_render _) (tempo_off_check _ _)). exact Hs.
    - unfold lmp_set_option, LMP_OPT_SUPPORT_TEMPO in *.
      destruct o as [|[q|q|]|]; try discriminate; exact Hs.
    - unfold lmp_set_pos. case_if; exact Hs. }
  unfold tempo_state in H. injection H. auto.
Qed.

Lemma tempo_off_is_fixed_witness :
  Forall (fun c => sets_option LMP_OPT_SUPPORT_TEMPO c = false)
         [FillBuffer 5000 LMP_MONO; SetOption LMP_OPT_LOOP 0] /\
  let s := lmp_run (lmp_set_option (fst (lmp_init mps_blank zero_blob))
                                   LMP_OPT_SUPPORT_TEMPO 0)
                   [FillBuffer 5000 LMP_MONO; SetOption LMP_OPT_LOOP 0] in
  mps_support_tempo s = 0 /\ mps_tempo s = 125 /\
  mps_samples_per_tick s = SAMPLES_PER_TICK.
Proof.
  assert (H : Forall (fun c => sets_option LMP_OPT_SUPPORT_TEMPO c = false)
                     [FillBuffer 5000 LMP_MONO; SetOption LMP_OPT_LOOP 0]).
  { repeat constructor. }
  split; [exact H|].
  apply (tempo_off_is_fixed mps_blank zero_blob _ H).
Defined.

(** ** Ticks between rows: portamento *)






(** ** The volume effects *)

Lemma chan_get_chan_upd (s : mps_t) (chan chan' : nat) (f : mpschan_t -> mpschan_t) :
  (chan < length (mps_cs s))%nat ->
  chan_get (chan_upd chan f s) chan'
  = if decide (chan' = chan) then f (chan_get s chan) else chan_get s chan'.
Proof.
  intros H. unfold chan_get, chan_upd, chan_set, chan_get.
  cbn [mps_cs set_cs]. destruct (decide (chan' = chan)) as [-> | Hne].
  - apply list_lookup_total_insert_eq. exact H.
  - apply list_lookup_total_insert_ne. congruence.
Qed.

(** X10. Effect 12 sets the channel's volume to the parameter, at most 64;
    effect 10 adds the parameter as a signed byte and keeps the result in
    0..64.  Neither touches another channel, the cursor or the clocks. *)
Theorem volume_effects (s : mps_t) (chan : nat) (val : Z) :
  (chan < length (mps_cs s))%nat -> 0 <= val < 256 ->
  let v := c_vol (chan_get s chan) in
  let set := lmp_process_command s chan 12 val in
  let slide := lmp_process_command s chan 10 val in
  c_vol (chan_get set chan) = Z.min val 64 /\
  c_vol (chan_get slide chan) = Z.max 0 (Z.min 64 (v + s8 val)) /\
  (forall chan', chan' <> chan ->
     chan_get set chan' = chan_get s chan' /\
     chan_get slide chan' = chan_get s chan') /\
  clocks set = clocks s /\ clocks slide = clocks s.
Proof.
  intros Hc Hval. cbv zeta. cbn [lmp_process_command]. cbv zeta.
  rewrite !chan_get_chan_upd by exact Hc.
  destruct (decide (chan = chan)) as [_ | N]; [|contradiction].
  cbn [c_vol set_c_vol].
  split; [|split; [|split]].
  - destruct (Z.gtb_spec val 64); lia.
  - destruct (Z.gtb_spec (c_vol (chan_get s chan) + s8 val) 64).
    + change (64 <? 0) with false. cbv iota. rewrite u8_small by lia. lia.
    + destruct (Z.ltb_spec (c_vol (chan_get s chan) + s8 val) 0);
        rewrite u8_small by lia; lia.
  - intros chan' Hne. rewrite !chan_get_chan_upd by exact Hc.
    destruct (decide (chan' = chan)); [contradiction|]. split; reflexivity.
  - split; reflexivity.
Qed.

Lemma volume_effects_witness :
  (2 < length (mps_cs mps_blank))%nat /\ 0 <= 0x50 < 256 /\
  let s := mps_blank in
  let v := c_vol (chan_get s 2) in
  let set := lmp_process_command s 2 12 0x50 in
  let slide := lmp_process_command s 2 10 0x50 in
  c_vol (chan_get set 2) = Z.min 0x50 64 /\
  c_vol (chan_get slide 2) = Z.max 0 (Z.min 64 (v + s8 0x50)) /\
  (forall chan', chan' <> 2%nat ->
     chan_get set chan' = chan_get s chan' /\
     chan_get slide chan' = chan_get s chan') /\
  clocks set = clocks s /\ clocks slide = clocks s.
Proof.
  split; [vm_compute; lia|]. split; [lia|].
  apply (volume_effects mps_blank 2 0x50); [vm_compute; lia | lia].
Defined.

(** ** The mixers *)

Lemma s16_small (x : Z) : in_s16 x -> s16 x = x.
Proof.
  unfold in_s16, s16. intros H. cbv zeta.
  destruct (Z.le_gt_cases 0 x).
  - rewrite Z.mod_small by lia. destruct (Z.ltb_spec x 32768); lia.
  - replace (x mod 65536) with (x + 65536).
    + destruct (Z.ltb_spec (x + 65536) 32768); lia.
    + apply (Z.mod_unique x 65536 (-1) (x + 65536)); lia.
Qed.

Lemma quot_in_s16 (x k : Z) :
  0 < k -> -32768 * k <= x <= 32767 * k -> in_s16 (Z.quot x k).
Proof.
  intros Hk Hx. unfold in_s16.
  pose proof (Z.quot_rem x k ltac:(lia)) as E.
  destruct (Z.le_gt_cases 0 x) as [Hp | Hn].
  - pose proof (Z.rem_bound_pos x k Hp Hk). nia.
  - pose proof (Z.rem_bound_pos_neg x k ltac:(lia) ltac:(lia)). nia.
Qed.

(** X11. The mixers do not wrap: for channel samples in the 16-bit range the
    stored samples are the exact truncated quotients; the left side is fed
    by channels 0 and 3, the right side by channels 1 and 2 (with a quarter
    of the other side when soft).  Four equal channel samples come out
    unchanged in every mode. *)
Theorem mixers_exact (a b c d : Z) :
  in_s16 a -> in_s16 b -> in_s16 c -> in_s16 d ->
  mix_frame LMP_MONO [a; b; c; d] = [Z.quot (a + b + c + d) 4] /\
  mix_frame LMP_STEREO_HARD [a; b; c; d] = [Z.quot (a + d) 2; Z.quot (b + c) 2] /\
  mix_frame LMP_STEREO_SOFT [a; b; c; d]
  = [Z.quot ((a + d) * 3 + (b + c)) 8; Z.quot ((b + c) * 3 + (a + d)) 8] /\
  (forall mx, Forall (fun x => x = a) (mix_frame mx [a; a; a; a])).
Proof.
  unfold in_s16. intros Ha Hb Hc Hd.
  assert (Hm : mix_frame LMP_MONO [a; b; c; d] = [Z.quot (a + b + c + d) 4]).
  { cbn. unfold host_to_LE16. rewrite s16_small; [reflexivity|].
    apply quot_in_s16; lia. }
  assert (Hh : mix_frame LMP_STEREO_HARD [a; b; c; d]
               = [Z.quot (a + d) 2; Z.quot (b + c) 2]).
  { cbn. unfold host_to_LE16. rewrite !s16_small; [reflexivity| |];
      apply quot_in_s16; lia. }
  assert (Hs : mix_frame LMP_STEREO_SOFT [a; b; c; d]
               = [Z.quot ((a + d) * 3 + (b + c)) 8;
                  Z.quot ((b + c) * 3 + (a + d)) 8]).
  { cbn. unfold host_to_LE16. rewrite !s16_small; [reflexivity| |];
      apply quot_in_s16; lia. }
  split; [exact Hm|]. split; [exact Hh|]. split; [exact Hs|].
  intros mx. destruct mx; cbn; unfold host_to_LE16.
  - replace (a + a + a + a) with (a * 4) by lia.
    rewrite Z.quot_mul, s16_small by (unfold in_s16; lia). repeat constructor.
  - replace ((a + a) * 3 + (a + a)) with (a * 8) by lia.
    rewrite Z.quot_mul, s16_small by (unfold in_s16; lia). repeat constructor.
  - replace (a + a) with (a * 2) by lia.
    rewrite Z.quot_mul, s16_small by (unfold in_s16; lia). repeat constructor.
Qed.

Lemma mixers_exact_witness :
  in_s16 32767 /\ in_s16 (-32768) /\ in_s16 100 /\ in_s16 (-7) /\
  mix_frame LMP_MONO [32767; -32768; 100; -7]
  = [Z.quot (32767 + -32768 + 100 + -7) 4] /\
  mix_frame LMP_STEREO_HARD [32767; -32768; 100; -7]
  = [Z.quot (32767 + -7) 2; Z.quot (-32768 + 100) 2] /\
  mix_frame LMP_STEREO_SOFT [32767; -32768; 100; -7]
  = [Z.quot ((32767 + -7) * 3 + (-32768 + 100)) 8;
     Z.quot ((-32768 + 100) * 3 + (32767 + -7)) 8] /\
  (forall mx, Forall (fun x => x = 32767)
                     (mix_frame mx [32767; 32767; 32767; 32767])).
Proof.
  unfold in_s16.
  split; [lia|]. split; [lia|]. split; [lia|]. split; [lia|].
  apply (mixers_exact 32767 (-32768) 100 (-7)); unfold in_s16; lia.
Defined.

(** ** What a voice contributes *)

Lemma load_s8_times_256 (m : blob) (off : Z) :
  -32768 <= load_s8 m off * 256 <= 32512.
Proof. unfold load_s8. pose proof (s8_range (m off)). lia. Qed.

Lemma interpolate_range (c1 c2 frac : Z) :
  -32768 <= c1 <= 32512 -> -32768 <= c2 <= 32512 -> 0 <= frac < 4096 ->
  -32768 <= (c1 * (4096 - frac) + c2 * frac) / 4096 <= 32512.
Proof.
  intros H1 H2 Hf. split.
  - apply Z.div_le_lower_bound; [lia | nia].
  - apply Z.div_le_upper_bound; [lia | nia].
Qed.

(** X12. A playing voice whose volume is in 0..64 contributes, without 16-bit
    wrap, the sample interpolated between the byte at the voice's position
    and the next one (the same byte again at the end of the sample), scaled
    by volume/64 and truncated towards zero.  At a whole position and full
    volume that is the byte times 256; at volume 0 it is 0. *)
Theorem lmp_render_chan_value (m : blob) (ch : mpschan_t) :
  c_on ch <> 0 -> 0 <= c_vol ch <= 64 ->
  let ip := Z.shiftr (c_pos ch) 12 in
  let frac := c_pos ch mod 4096 in
  let c1 := load_s8 m (c_sample ch + ip) * 256 in
  let c2 := if ip <? Z.shiftr (c_len ch) 12
            then load_s8 m (c_sample ch + (ip + 1)) * 256 else c1 in
  let v := snd (fst (lmp_render_chan m ch)) in
  v = Z.quot ((c1 * (4096 - frac) + c2 * frac) / 4096 * c_vol ch) 64 /\
  -32768 <= v <= 32512 /\
  (frac = 0 -> c_vol ch = 64 -> v = c1) /\
  (c_vol ch = 0 -> v = 0).
Proof.
  intros Hon Hvol. cbv zeta. unfold lmp_render_chan.
  destruct (Z.eqb_spec (c_on ch) 0) as [E | _]; [contradiction|].
  cbv zeta. cbn [fst snd].
  change (Z.shiftl 1 SAMP_FP_SPLIT - 1) with (Z.ones 12).
  change (Z.shiftl 1 SAMP_FP_SPLIT) with 4096.
  change SAMP_FP_SPLIT with 12. change 0x100 with 256.
  rewrite Z.land_ones by lia. change (2 ^ 12) with 4096.
  set (ip := Z.shiftr (c_pos ch) 12).
  set (frac := c_pos ch mod 4096).
  set (c1 := load_s8 m (c_sample ch + ip) * 256).
  set (c2 := if ip <? Z.shiftr (c_len ch) 12
             then load_s8 m (c_sample ch + (ip + 1)) * 256 else c1).
  rewrite (Z.shiftr_div_pow2 _ 12) by lia. change (2 ^ 12) with 4096.
  set (c := (c1 * (4096 - frac) + c2 * frac) / 4096).
  assert (Hf : 0 <= frac < 4096) by (apply Z.mod_pos_bound; lia).
  assert (H1 : -32768 <= c1 <= 32512) by apply load_s8_times_256.
  assert (H2 : -32768 <= c2 <= 32512).
  { unfold c2. destruct (ip <? _); [apply load_s8_times_256 | exact H1]. }
  assert (Hc : -32768 <= c <= 32512) by (apply interpolate_range; assumption).
  assert (Hq : -32768 <= Z.quot (c * c_vol ch) 64 <= 32512).
  { pose proof (Z.quot_rem (c * c_vol ch) 64 ltac:(lia)) as E.
    destruct (Z.le_gt_cases 0 (c * c_vol ch)) as [Hp | Hn].
    - pose proof (Z.rem_bound_pos (c * c_vol ch) 64 Hp ltac:(lia)). nia.
    - pose proof (Z.rem_bound_pos_neg (c * c_vol ch) 64 ltac:(lia) ltac:(lia)).
      nia. }
  rewrite s16_small by (unfold in_s16; lia).
  split; [reflexivity|]. split; [exact Hq|]. split.
  - intros Hz Hv. unfold c. rewrite Hz, Hv.
    replace (c1 * (4096 - 0) + c2 * 0) with (c1 * 4096) by lia.
    rewrite Z.div_mul by lia. apply Z.quot_mul. lia.
  - intros Hv. rewrite Hv, Z.mul_0_r. reflexivity.
Qed.

Lemma lmp_render_chan_value_witness :
  let ch := set_c_vol 64 (set_c_on 1 inhabitant) in
  c_on ch <> 0 /\ 0 <= c_vol ch <= 64 /\
  let ip := Z.shiftr (c_pos ch) 12 in
  let frac := c_pos ch mod 4096 in
  let c1 := load_s8 zero_blob (c_sample ch + ip) * 256 in
  let c2 := if ip <? Z.shiftr (c_len ch) 12
            then load_s8 zero_blob (c_sample ch + (ip + 1)) * 256 else c1 in
  let v := snd (fst (lmp_render_chan zero_blob ch)) in
  v = Z.quot ((c1 * (4096 - frac) + c2 * frac) / 4096 * c_vol ch) 64 /\
  -32768 <= v <= 32512 /\
  (frac = 0 -> c_vol ch = 64 -> v = c1) /\
  (c_vol ch = 0 -> v = 0).
Proof.
  cbv zeta. split; [vm_compute; discriminate|]. split; [vm_compute; split; discriminate|].
  apply (lmp_render_chan_value zero_blob (set_c_vol 64 (set_c_on 1 inhabitant)));
    vm_compute; [discriminate | split; discriminate].
Defined.

(** ** How long a voice plays *)

Lemma render_frames_S (m : blob) (k : nat) (ch : mpschan_t) :
  render_frames m (S k) ch
  = render_frames m k (fst (fst (lmp_render_chan m ch))).
Proof.
  unfold render_frames.
  set (f := fun c => fst (fst (lmp_render_chan m c))).
  induction k as [|k IH]; [reflexivity|].
  change (Nat.iter (S (S k)) f ch) with (f (Nat.iter (S k) f ch)).
  rewrite IH. reflexivity.
Qed.

Lemma render_frames_off (m : blob) (k : nat) (ch : mpschan_t) :
  c_on ch = 0 -> render_frames m k ch = ch.
Proof.
  intros H. induction k as [|k IH]; [reflexivity|].
  rewrite render_frames_S, lmp_render_chan_off by exact H. exact IH.
Qed.

Lemma lmp_render_chan_one_shot (m : blob) (ch : mpschan_t) :
  c_on ch <> 0 -> c_looping ch = 0 ->
  0 <= c_pos ch -> 0 <= c_phaseinc ch ->
  c_pos ch + c_phaseinc ch < 4294967296 ->
  fst (fst (lmp_render_chan m ch))
  = if c_pos ch + c_phaseinc ch >? c_len ch
    then set_c_on 0 (set_c_pos (c_pos ch + c_phaseinc ch) ch)
    else set_c_pos (c_pos ch + c_phaseinc ch) ch.
Proof.
  intros Hon Hl Hp Hi Hw. unfold lmp_render_chan.
  destruct (Z.eqb_spec (c_on ch) 0) as [E | _]; [contradiction|].
  cbv zeta. cbn [fst c_looping c_pos c_len set_c_pos].
  rewrite Hl, u32_small by lia. cbn [Z.ltb Z.compare andb Z.eqb].
  destruct (c_pos ch + c_phaseinc ch >? c_len ch);
    cbn [c_looping set_c_on set_c_pos]; rewrite Hl; reflexivity.
Qed.

(** X13. A one-shot voice (no repeat) that starts inside its sample advances by
    its phase increment per output frame and is switched off by the first
    frame that takes its position beyond the sample length: it plays exactly
    while [pos + k * phaseinc <= len]. *)
Theorem one_shot_voice_stops (m : blob) (ch : mpschan_t) (k : nat) :
  c_on ch <> 0 -> c_looping ch = 0 ->
  0 <= c_pos ch <= c_len ch -> 0 < c_phaseinc ch ->
  c_len ch + c_phaseinc ch < 4294967296 ->
  let p := c_pos ch + Z.of_nat k * c_phaseinc ch in
  (p <= c_len ch -> render_frames m k ch = set_c_pos p ch) /\
  (c_len ch < p -> c_on (render_frames m k ch) = 0).
Proof.
  revert ch. induction k as [|k IH]; intros ch Hon Hl Hp Hi Hw; cbv zeta.
  - split; [|lia]. intros _. replace (c_pos ch + Z.of_nat 0 * c_phaseinc ch)
      with (c_pos ch) by lia. destruct ch; reflexivity.
  - rewrite render_frames_S, lmp_render_chan_one_shot by (try assumption; lia).
    destruct (Z.gtb_spec (c_pos ch + c_phaseinc ch) (c_len ch)) as [Hgt | Hle].
    + rewrite render_frames_off by reflexivity. split; [nia | reflexivity].
    + specialize (IH (set_c_pos (c_pos ch + c_phaseinc ch) ch)).
      cbn [c_on c_looping c_pos c_len c_phaseinc set_c_pos] in IH.
      specialize (IH Hon Hl ltac:(lia) Hi Hw). cbv zeta in IH.
      replace (c_pos ch + Z.of_nat (S k) * c_phaseinc ch)
        with (c_pos ch + c_phaseinc ch + Z.of_nat k * c_phaseinc ch) by lia.
      destruct IH as [IH1 IH2]. split; [|exact IH2].
      intros Hin. rewrite IH1 by exact Hin. reflexivity.
Qed.

Lemma one_shot_voice_stops_witness :
  let ch := set_c_phaseinc 4096 (set_c_len (256 * 4096) (set_c_on 1 inhabitant)) in
  c_on ch <> 0 /\ c_looping ch = 0 /\
  0 <= c_pos ch <= c_len ch /\ 0 < c_phaseinc ch /\
  c_len ch + c_phaseinc ch < 4294967296 /\
  let p := c_pos ch + Z.of_nat 257 * c_phaseinc ch in
  (p <= c_len ch -> render_frames zero_blob 257 ch = set_c_pos p ch) /\
  (c_len ch < p -> c_on (render_frames zero_blob 257 ch) = 0).
Proof.
  cbv zeta. split; [vm_compute; discriminate|]. split; [reflexivity|].
  split; [vm_compute; split; discriminate|]. split; [reflexivity|].
  split; [reflexivity|].
  apply (one_shot_voice_stops zero_blob
           (set_c_phaseinc 4096 (set_c_len (256 * 4096) (set_c_on 1 inhabitant)))
           257);
    vm_compute; try reflexivity; try discriminate; split; discriminate.
Defined.

Lemma lmp_render_chan_looping (m : blob) (ch : mpschan_t) :
  c_looping ch <> 0 ->
  c_on (fst (fst (lmp_render_chan m ch))) = c_on ch /\
  c_looping (fst (fst (lmp_render_chan m ch))) <> 0.
Proof.
  intros Hl. unfold lmp_render_chan. case_if; [auto|].
  cbv zeta. cbn [fst c_looping c_pos c_len set_c_pos].
  destruct (Z.eqb_spec (c_looping ch) 0) as [E | _]; [contradiction|].
  repeat (case_if; cbn [c_on c_looping c_pos c_len c_repeat_end set_c_pos
                          set_c_looping]); auto; discriminate.
Qed.

(** X14. A voice of an instrument with a repeat part is never switched off by
    the renderer, however many frames are rendered. *)
Theorem looping_voice_stays_on (m : blob) (ch : mpschan_t) (k : nat) :
  c_looping ch <> 0 ->
  c_on (render_frames m k ch) = c_on ch /\
  c_looping (render_frames m k ch) <> 0.
Proof.
  revert ch. induction k as [|k IH]; intros ch Hl; [auto|].
  rewrite render_frames_S.
  destruct (lmp_render_chan_looping m ch Hl) as [Hon Hl1].
  destruct (IH _ Hl1) as [IH1 IH2]. split; [congruence | exact IH2].
Qed.

Lemma looping_voice_stays_on_witness :
  let ch := set_c_phaseinc 4096 (set_c_looping 1 (set_c_on 1 inhabitant)) in
  c_looping ch <> 0 /\
  c_on (render_frames zero_blob 1000 ch) = c_on ch /\
  c_looping (render_frames zero_blob 1000 ch) <> 0.
Proof.
  cbv zeta. split; [vm_compute; discriminate|].
  apply (looping_voice_stays_on zero_blob
           (set_c_phaseinc 4096 (set_c_looping 1 (set_c_on 1 inhabitant))) 1000).
  vm_compute. discriminate.
Defined.

(** ** Buffers: splitting, odd stereo sizes, unknown mix types *)

Lemma lmp_fill_loop_acc (mx : lmp_mix_t) (iters : nat) :
  forall s samples done,
    lmp_fill_loop mx iters s samples done
    = let r := lmp_fill_loop mx iters s [] 0 in
      (fst (fst r), samples ++ snd (fst r), Z.lor done (snd r)).
Proof.
  induction iters as [|k IH]; intros s samples done; cbv zeta.
  - cbn. rewrite app_nil_r, Z.lor_0_r. reflexivity.
  - cbn [lmp_fill_loop]. destruct (lmp_frame mx s) as [[s1 out] d].
    rewrite (IH s1 (samples ++ out) (Z.lor done d)).
    rewrite (IH s1 ([] ++ out) (Z.lor 0 d)). cbv zeta. cbn [fst snd].
    rewrite app_nil_l, Z.lor_0_l, <- app_assoc, Z.lor_assoc. reflexivity.
Qed.







(** X17. A mix type that is none of the three enumerators makes
    [lmp_fill_buffer] return -1; nothing is stored and the player state is
    not advanced. *)
Theorem lmp_fill_buffer_unknown_mix (s : mps_t) (n mix_type : Z) :
  (forall mx, mix_type <> mix_val mx) ->
  lmp_fill_buffer s n mix_type = (s, [], -1).
Proof.
  intros H. apply lmp_fill_buffer_bad_mix.
  - apply (H LMP_MONO).
  - apply (H LMP_STEREO_SOFT).
  - apply (H LMP_STEREO_HARD).
Qed.

Lemma lmp_fill_buffer_unknown_mix_witness :
  (forall mx, 7 <> mix_val mx) /\
  lmp_fill_buffer mps_blank 16 7 = (mps_blank, [], -1).
Proof.
  assert (H : forall mx, 7 <> mix_val mx) by (intros mx; destruct mx; discriminate).
  split; [exact H|].
  apply (lmp_fill_buffer_unknown_mix mps_blank 16 7 H).
Defined.

(** ** The tick clock *)

Lemma lmp_frame_no_tick (mx : lmp_mix_t) (s : mps_t) :
  1 < mps_sample_counter s < 4294967296 ->
  let f := lmp_frame mx s in
  snd f = 0 /\ song (fst (fst f)) = song s /\
  clocks (fst (fst f)) = clocks (set_sample_counter (mps_sample_counter s - 1) s).
Proof.
  intros Hsc. cbv zeta. unfold lmp_frame.
  destruct (lmp_render_samples_clocks s) as [Es Ec].
  destruct (lmp_render_samples s) as [s1 csamp]. cbn [fst] in Es, Ec.
  unfold clocks in Ec. injection Ec as E1 E2 E3 E4 E5 E6.
  unfold lmp_check_for_tick. cbv zeta.
  cbn [mps_sample_counter set_sample_counter].
  rewrite E6, u32_small by lia.
  destruct (Z.eqb_spec (mps_sample_counter s - 1) 0) as [E | _]; [lia|].
  cbn [fst snd]. split; [reflexivity|]. split; [exact Es|].
  unfold clocks. cbn. congruence.
Qed.

Lemma lmp_frame_tick (mx : lmp_mix_t) (s : mps_t) :
  mps_sample_counter s = 1 ->
  fst (fst (lmp_frame mx s))
  = fst (lmp_tick (set_sample_counter (mps_samples_per_tick s)
                     (fst (lmp_render_samples s)))).
Proof.
  intros Hsc. unfold lmp_frame.
  destruct (lmp_render_samples_clocks s) as [_ Ec].
  destruct (lmp_render_samples s) as [s1 csamp]. cbn [fst] in *.
  unfold clocks in Ec. injection Ec as E1 E2 E3 E4 E5 E6.
  unfold lmp_check_for_tick. cbv zeta.
  cbn [mps_sample_counter set_sample_counter].
  rewrite E6, Hsc. change (u32 (1 - 1) =? 0) with true. cbv iota.
  change (mps_samples_per_tick (set_sample_counter (u32 (1 - 1)) s1))
    with (mps_samples_per_tick s1).
  rewrite E5.
  change (set_sample_counter (mps_samples_per_tick s)
            (set_sample_counter (u32 (1 - 1)) s1))
    with (set_sample_counter (mps_samples_per_tick s) s1).
  destruct (lmp_tick (set_sample_counter (mps_samples_per_tick s) s1)).
  reflexivity.
Qed.

Lemma lmp_fill_loop_no_tick (mx : lmp_mix_t) (j : nat) :
  forall s,
    Z.of_nat j < mps_sample_counter s < 4294967296 ->
    let r := lmp_fill_loop mx j s [] 0 in
    snd r = 0 /\ song (fst (fst r)) = song s /\
    clocks (fst (fst r))
    = clocks (set_sample_counter (mps_sample_counter s - Z.of_nat j) s).
Proof.
  induction j as [|j IH]; intros s Hsc; cbv zeta.
  - cbn. split; [reflexivity|]. split; [reflexivity|].
    unfold clocks. cbn. f_equal. lia.
  - cbn [lmp_fill_loop].
    destruct (lmp_frame_no_tick mx s ltac:(lia)) as (Hd & Es & Ec).
    destruct (lmp_frame mx s) as [[s1 out] d]. cbn [fst snd] in *. subst d.
    rewrite lmp_fill_loop_acc. cbv zeta. cbn [fst snd].
    unfold clocks in Ec. cbn in Ec. injection Ec as E1 E2 E3 E4 E5 E6.
    destruct (IH s1 ltac:(lia)) as (Hd1 & Es1 & Ec1).
    rewrite Hd1. split; [reflexivity|]. split; [congruence|].
    rewrite Ec1. unfold clocks. cbn. rewrite E1, E2, E3, E4, E5, E6.
    f_equal. lia.
Qed.

(** X18. The sequencer is clocked by the sample counter alone: while fewer
    frames are rendered than the counter holds, no tick happens (position,
    row, speed, tick counter and tempo stay, the counter goes down by one
    per frame, nothing is reported done), and the frame that takes the
    counter from 1 to 0 reloads it with [samples_per_tick] and runs
    [lmp_tick]. *)
Theorem tick_cadence (mx : lmp_mix_t) (s : mps_t) (j : nat) :
  Z.of_nat j < mps_sample_counter s < 4294967296 ->
  let r := lmp_fill_loop mx j s [] 0 in
  let s' := fst (fst r) in
  snd r = 0 /\ song s' = song s /\
  clocks s' = clocks (set_sample_counter (mps_sample_counter s - Z.of_nat j) s) /\
  (Z.of_nat j + 1 = mps_sample_counter s ->
   fst (fst (lmp_frame mx s'))
   = fst (lmp_tick (set_sample_counter (mps_samples_per_tick s)
                      (fst (lmp_render_samples s'))))).
Proof.
  intros Hsc. cbv zeta.
  destruct (lmp_fill_loop_no_tick mx j s Hsc) as (Hd & Es & Ec).
  cbv zeta in Hd, Es, Ec.
  split; [exact Hd|]. split; [exact Es|]. split; [exact Ec|].
  intros Hj. unfold clocks in Ec. cbn in Ec. injection Ec as E1 E2 E3 E4 E5 E6.
  rewrite lmp_frame_tick by lia. rewrite E5. reflexivity.
Qed.

Lemma tick_cadence_witness :
  let s := fst (lmp_init mps_blank zero_blob) in
  Z.of_nat 881 < mps_sample_counter s < 4294967296 /\
  let r := lmp_fill_loop LMP_MONO 881 s [] 0 in
  let s' := fst (fst r) in
  snd r = 0 /\ song s' = song s /\
  clocks s' = clocks (set_sample_counter (mps_sample_counter s - Z.of_nat 881) s) /\
  (Z.of_nat 881 + 1 = mps_sample_counter s ->
   fst (fst (lmp_frame LMP_MONO s'))
   = fst (lmp_tick (set_sample_counter (mps_samples_per_tick s)
                      (fst (lmp_render_samples s'))))).
Proof.
  cbv zeta.
  assert (H : Z.of_nat 881
              < mps_sample_counter (fst (lmp_init mps_blank zero_blob))
              < 4294967296) by (vm_compute; split; reflexivity).
  split; [exact H|].
  apply (tick_cadence LMP_MONO (fst (lmp_init mps_blank zero_blob)) 881 H).
Defined.

(** ** A module without notes *)







Lemma lmp_tick_frame_cell (s : mps_t) (chan : nat) :
  0 <= mps_pos_pattern s <= 63 ->
  lmp_tick_frame s + 4 * Z.of_nat chan
  = cell_offset s (mps_pos s) (mps_pos_pattern s) chan.
Proof.
  intros Hpp. unfold lmp_tick_frame, cell_offset. cbv zeta.
  pose proof (load8_range (mps_mod_data s) (mps_sequence s + mps_pos s)).
  rewrite u32_small by lia. reflexivity.
Qed.








(** ** Moving through the song *)

Lemma lmp_process_command_cursor (s : mps_t) (chan : nat) (command val : Z) :
  command <> 11 -> command <> 13 ->
  mps_pos (lmp_process_command s chan command val) = mps_pos s /\
  mps_pos_pattern (lmp_process_command s chan command val) = mps_pos_pattern s.
Proof.
  intros H11 H13. apply lmp_process_command_cases.
  - auto.
  - intros _. split; reflexivity.
  - intros _. split; reflexivity.
  - intros E. contradiction.
  - intros _. split; reflexivity.
  - intros E. contradiction.
  - intros _. cbn [lmp_process_command]. cbv zeta.
    repeat case_if; split; reflexivity.
Qed.

Lemma lmp_tick_chan_cursor (cf : Z) (chan : nat) (s : mps_t) :
  let command :=
    note_command (host_to_LE32 (load32 (mps_mod_data s) (cf + 4 * Z.of_nat chan))) in
  command <> 11 -> command <> 13 ->
  mps_pos (lmp_tick_chan cf chan s) = mps_pos s /\
  mps_pos_pattern (lmp_tick_chan cf chan s) = mps_pos_pattern s.
Proof.
  cbv zeta. intros H11 H13. unfold lmp_tick_chan. cbv zeta.
  case_if.
  - match goal with
    | |- context [lmp_process_command ?t chan ?c ?v] =>
        destruct (lmp_process_command_cursor t chan c v H11 H13) as [E1 E2]
    end.
    rewrite E1, E2. split; reflexivity.
  - match goal with
    | |- context [lmp_process_command ?t chan ?c ?v] =>
        destruct (lmp_process_command_cursor t chan c v H11 H13) as [E1 E2]
    end.
    rewrite E1, E2. split; reflexivity.
Qed.

Lemma lmp_tick_chan_mod_data (cf : Z) (chan : nat) (s : mps_t) :
  mps_mod_data (lmp_tick_chan cf chan s) = mps_mod_data s.
Proof.
  apply song_mod_data.
  pose proof (lmp_tick_chan_step cf chan s) as (Hs & _). exact Hs.
Qed.

Lemma lmp_tick_plain_row (s : mps_t) :
  0 <= mps_pos_pattern s <= 63 ->
  (forall chan, (chan < 4)%nat ->
     cell_command s (mps_pos s) (mps_pos_pattern s) chan <> 11 /\
     cell_command s (mps_pos s) (mps_pos_pattern s) chan <> 13) ->
  let sa := set_tick_counter (mps_speed s) s in
  let s0 := set_pos_pattern (u32 (mps_pos_pattern sa + 1)) sa in
  let s1 := for_chans (lmp_tick_chan (lmp_tick_frame sa)) s0 in
  mps_pos s1 = mps_pos s /\ mps_pos_pattern s1 = mps_pos_pattern s + 1 /\
  song s1 = song s.
Proof.
  intros Hpp Hcmd sa s0 s1.
  assert (H : mps_mod_data s1 = mps_mod_data s /\ mps_pos s1 = mps_pos s0 /\
              mps_pos_pattern s1 = mps_pos_pattern s0).
  { unfold s1.
    apply (for_chans_ind
             (fun s' => mps_mod_data s' = mps_mod_data s /\
                        mps_pos s' = mps_pos s0 /\
                        mps_pos_pattern s' = mps_pos_pattern s0)).
    - repeat split; reflexivity.
    - intros chan s' Hc (Hm & Hp & Hr).
      rewrite lmp_tick_chan_mod_data. split; [exact Hm|].
      rewrite <- Hp, <- Hr. apply lmp_tick_chan_cursor.
      + rewrite Hm. change (mps_mod_data s) with (mps_mod_data sa).
        rewrite lmp_tick_frame_cell by exact Hpp. apply (Hcmd chan Hc).
      + rewrite Hm. change (mps_mod_data s) with (mps_mod_data sa).
        rewrite lmp_tick_frame_cell by exact Hpp. apply (Hcmd chan Hc). }
  destruct H as (_ & Hp & Hr). split; [exact Hp|]. split.
  - rewrite Hr. unfold s0, sa. cbn. apply u32_small. lia.
  - unfold s1. rewrite lmp_tick_row_song. reflexivity.
Qed.

(** X20. A row that holds no position jump and no pattern break moves the
    cursor one row on; after row 63 it moves to row 0 of the next position,
    and after the last position to position 0, which is reported as the end
    of the song exactly when looping is off. *)
Theorem plain_row_advance (s : mps_t) :
  player_inv s -> mps_pos s < mps_length s -> mps_tick_counter s <= 1 ->
  (forall chan, (chan < 4)%nat ->
     cell_command s (mps_pos s) (mps_pos_pattern s) chan <> 11 /\
     cell_command s (mps_pos s) (mps_pos_pattern s) chan <> 13) ->
  let r := lmp_tick s in
  let last := (mps_pos_pattern s =? 63) && (mps_length s <=? mps_pos s + 1) in
  mps_pos_pattern (fst r) = (if mps_pos_pattern s <? 63
                             then mps_pos_pattern s + 1 else 0) /\
  mps_pos (fst r) = (if mps_pos_pattern s <? 63 then mps_pos s
                     else if last then 0 else mps_pos s + 1) /\
  snd r = (if last && (mps_song_loop s =? 0) then 1 else 0).
Proof.
  intros Hinv Hin Htc Hcmd.
  pose proof Hinv as (Hlen & Hpos & Hpp & Hsp & Htk & Hspt & Hsc).
  destruct (lmp_tick_plain_row s Hpp Hcmd) as (Hp & Hr & Hs).
  cbv zeta in Hp, Hr, Hs. cbv zeta. unfold lmp_tick.
  replace (mps_tick_counter s >? 1) with false by lia. cbv zeta.
  pose proof (song_length _ _ Hs) as El. pose proof (song_loop _ _ Hs) as Eo.
  revert Hp Hr El Eo.
  generalize (for_chans
                (lmp_tick_chan (lmp_tick_frame (set_tick_counter (mps_speed s) s)))
                (set_pos_pattern
                   (u32 (mps_pos_pattern (set_tick_counter (mps_speed s) s) + 1))
                   (set_tick_counter (mps_speed s) s))).
  intros s1 Hp Hr El Eo. unfold lmp_tick_advance. cbv zeta.
  destruct (Z.ltb_spec (mps_pos_pattern s) 63) as [Hlt | Hge].
  - replace (mps_pos_pattern s1 >? 63) with false by lia.
    rewrite Hp, El. replace (mps_pos s >=? mps_length s) with false by lia.
    replace (mps_pos_pattern s =? 63) with false by lia.
    cbn [fst snd andb]. repeat split; congruence.
  - replace (mps_pos_pattern s1 >? 63) with true by lia.
    replace (mps_pos_pattern s =? 63) with true by lia.
    cbn [mps_pos mps_length mps_pos_pattern set_pos set_pos_pattern andb].
    rewrite Hp, El, u32_small by lia.
    destruct (Z.leb_spec (mps_length s) (mps_pos s + 1)) as [Hl | Hl].
    + replace (mps_pos s + 1 >=? mps_length s) with true by lia.
      cbn [mps_song_loop set_pos set_pos_pattern andb]. rewrite Eo.
      destruct (mps_song_loop s =? 0); cbn; repeat split; reflexivity.
    + replace (mps_pos s + 1 >=? mps_length s) with false by lia.
      cbn. repeat split; reflexivity.
Qed.

Lemma plain_row_advance_witness :
  let s := set_pos_pattern 63 (set_pos 1 (fst (lmp_init mps_blank two_position_blob))) in
  player_inv s /\ mps_pos s < mps_length s /\ mps_tick_counter s <= 1 /\
  (forall chan, (chan < 4)%nat ->
     cell_command s (mps_pos s) (mps_pos_pattern s) chan <> 11 /\
     cell_command s (mps_pos s) (mps_pos_pattern s) chan <> 13) /\
  let r := lmp_tick s in
  let last := (mps_pos_pattern s =? 63) && (mps_length s <=? mps_pos s + 1) in
  mps_pos_pattern (fst r) = (if mps_pos_pattern s <? 63
                             then mps_pos_pattern s + 1 else 0) /\
  mps_pos (fst r) = (if mps_pos_pattern s <? 63 then mps_pos s
                     else if last then 0 else mps_pos s + 1) /\
  snd r = (if last && (mps_song_loop s =? 0) then 1 else 0).
Proof.
  cbv zeta.
  assert (Hinv : player_inv (set_pos_pattern 63
                   (set_pos 1 (fst (lmp_init mps_blank two_position_blob))))).
  { unfold player_inv. vm_compute. intuition discriminate. }
  assert (Hcmd : forall chan, (chan < 4)%nat ->
     cell_command (set_pos_pattern 63
                     (set_pos 1 (fst (lmp_init mps_blank two_position_blob))))
       1 63 chan <> 11 /\
     cell_command (set_pos_pattern 63
                     (set_pos 1 (fst (lmp_init mps_blank two_position_blob))))
       1 63 chan <> 13).
  { intros chan Hc. destruct chan as [|[|[|[|n]]]]; try lia;
      vm_compute; split; discriminate. }
  split; [exact Hinv|]. split; [reflexivity|]. split; [vm_compute; discriminate|].
  split; [exact Hcmd|].
  apply (plain_row_advance _ Hinv); [reflexivity | vm_compute; discriminate | exact Hcmd].
Defined.

Lemma pattern_break_bits (v : Z) :
  Z.shiftr (Z.land (v mod 2 ^ 8) (Z.shiftl (Z.ones 4) 4)) 4
  = (Z.shiftr (v mod 2 ^ 8) 4) mod 2 ^ 8.
Proof. Z.bitblast. all: bits_done. Qed.

Lemma pattern_break_row (val : Z) :
  0 <= val < 256 ->
  Z.shiftr (Z.land val 0xf0) 4 * 10 + Z.land val 0xf
  = 10 * (val / 16) + val mod 16.
Proof.
  intros H. rewrite <- (Z.mod_small val (2 ^ 8)) at 1 by (change (2 ^ 8) with 256; lia).
  change 0xf0 with (Z.shiftl (Z.ones 4) 4). rewrite pattern_break_bits.
  change 0xf with (Z.ones 4). rewrite Z.land_ones by lia.
  rewrite (Z.mod_small val (2 ^ 8)) by (change (2 ^ 8) with 256; lia).
  rewrite Z.shiftr_div_pow2 by lia. change (2 ^ 4) with 16.
  assert (0 <= val / 16 < 16)
    by (split; [apply Z.div_pos; lia | apply Z.div_lt_upper_bound; lia]).
  rewrite Z.mod_small by (change (2 ^ 8) with 256; lia). lia.
Qed.

(** X21. A position jump (effect 11) that is the last cursor effect of its row
    continues at row 0 of the position given, if that is a position of the
    song other than 0.  A jump to position 0 or past the end continues at
    position 0 and counts as the end of the song: it is reported done when
    looping is off. *)
Theorem position_jump_target (s : mps_t) (chan : nat) (val : Z) :
  0 <= val < 256 -> 0 <= mps_length s < 256 ->
  let r := lmp_tick_advance (lmp_process_command s chan 11 val) in
  let inside := (0 <? val) && (val <? mps_length s) in
  mps_pos_pattern (fst r) = 0 /\
  mps_pos (fst r) = (if inside then val else 0) /\
  snd r = (if inside then 0 else if mps_song_loop s =? 0 then 1 else 0).
Proof.
  intros Hval Hlen. cbv zeta. cbn [lmp_process_command]. cbv zeta.
  unfold lmp_tick_advance. cbv zeta.
  destruct (Z.eqb_spec val 0) as [-> | Hnz].
  - cbn [mps_pos mps_pos_pattern mps_length mps_song_loop set_pos
         set_pos_pattern Z.gtb Z.compare Z.ltb andb].
    replace (4294967295 >=? mps_length s) with true by lia.
    destruct (mps_song_loop s =? 0); cbn; repeat split; reflexivity.
  - cbn [mps_pos mps_pos_pattern mps_length mps_song_loop set_pos
         set_pos_pattern Z.gtb Z.compare].
    replace (0 <? val) with true by lia. cbn [andb].
    destruct (Z.ltb_spec val (mps_length s)).
    + replace (val >=? mps_length s) with false by lia.
      cbn. repeat split; reflexivity.
    + replace (val >=? mps_length s) with true by lia.
      destruct (mps_song_loop s =? 0); cbn; repeat split; reflexivity.
Qed.

Lemma position_jump_target_witness :
  let s := fst (lmp_init mps_blank two_position_blob) in
  0 <= 0 < 256 /\ 0 <= mps_length s < 256 /\
  let r := lmp_tick_advance (lmp_process_command s 0 11 0) in
  let inside := (0 <? 0) && (0 <? mps_length s) in
  mps_pos_pattern (fst r) = 0 /\
  mps_pos (fst r) = (if inside then 0 else 0) /\
  snd r = (if inside then 0 else if mps_song_loop s =? 0 then 1 else 0).
Proof.
  cbv zeta. split; [lia|].
  split; [vm_compute; split; [discriminate | reflexivity]|].
  apply (position_jump_target (fst (lmp_init mps_blank two_position_blob)) 0 0);
    [lia | vm_compute; split; [discriminate | reflexivity]].
Defined.

(** X22. A pattern break (effect 13) reads its parameter as two decimal digits.
    If that row number is at most 63 and the break is the last cursor
    effect of its row, playback continues at that row of the next position
    (position 0 after the last one, reported done when looping is off); a
    row number above 63 is ignored. *)
Theorem pattern_break_target (s : mps_t) (chan : nat) (val : Z) :
  0 <= val < 256 -> 0 <= mps_pos s < 4294967295 ->
  let row := 10 * (val / 16) + val mod 16 in
  let r := lmp_tick_advance (lmp_process_command s chan 13 val) in
  let wraps := mps_length s <=? mps_pos s + 1 in
  (row <= 63 ->
   mps_pos_pattern (fst r) = row /\
   mps_pos (fst r) = (if wraps then 0 else mps_pos s + 1) /\
   snd r = (if wraps && (mps_song_loop s =? 0) then 1 else 0)) /\
  (63 < row -> lmp_process_command s chan 13 val = s).
Proof.
  intros Hval Hpos. cbv zeta. cbn [lmp_process_command]. cbv zeta.
  rewrite pattern_break_row by exact Hval.
  set (row := 10 * (val / 16) + val mod 16).
  split.
  - intros Hrow. replace (row >? 63) with false by lia.
    unfold lmp_tick_advance. cbv zeta.
    cbn [mps_pos mps_pos_pattern mps_length mps_song_loop set_pos set_pos_pattern].
    replace (row >? 63) with false by lia. cbv iota.
    cbn [mps_pos mps_pos_pattern mps_length mps_song_loop set_pos set_pos_pattern].
    rewrite u32_small by lia.
    destruct (Z.leb_spec (mps_length s) (mps_pos s + 1)).
    + replace (mps_pos s + 1 >=? mps_length s) with true by lia.
      cbn [andb]. destruct (mps_song_loop s =? 0); cbn; repeat split; reflexivity.
    + replace (mps_pos s + 1 >=? mps_length s) with false by lia.
      cbn. repeat split; reflexivity.
  - intros Hrow. replace (row >? 63) with true by lia. reflexivity.
Qed.

Lemma pattern_break_target_witness :
  let s := fst (lmp_init mps_blank two_position_blob) in
  0 <= 0x20 < 256 /\ 0 <= mps_pos s < 4294967295 /\
  let row := 10 * (0x20 / 16) + 0x20 mod 16 in
  let r := lmp_tick_advance (lmp_process_command s 1 13 0x20) in
  let wraps := mps_length s <=? mps_pos s + 1 in
  (row <= 63 ->
   mps_pos_pattern (fst r) = row /\
   mps_pos (fst r) = (if wraps then 0 else mps_pos s + 1) /\
   snd r = (if wraps && (mps_song_loop s =? 0) then 1 else 0)) /\
  (63 < row -> lmp_process_command s 1 13 0x20 = s).
Proof.
  cbv zeta. split; [lia|]. split; [vm_compute; split; [discriminate | reflexivity]|].
  apply (pattern_break_target (fst (lmp_init mps_blank two_position_blob)) 1 0x20);
    [lia | vm_compute; split; [discriminate | reflexivity]].
Defined.

(** ** Seeking and options *)

(** X23. A seek to a position of the song moves the cursor to row 0 of that
    position, so that the next row tick reads the first row of the pattern
    the sequence names there; a seek past the end is ignored.  In both
    cases the voices keep playing and the tick clock keeps its phase. *)
Theorem lmp_set_pos_seeks (s : mps_t) (p : Z) :
  0 <= p ->
  let s' := lmp_set_pos s p in
  (p < lmp_get_length s ->
   mps_pos s' = p /\ mps_pos_pattern s' = 0 /\
   forall chan, lmp_tick_frame (set_tick_counter (mps_speed s') s')
                + 4 * Z.of_nat chan = cell_offset s p 0 chan) /\
  (lmp_get_length s <= p -> s' = s) /\
  mps_cs s' = mps_cs s /\ song s' = song s /\
  mps_tick_counter s' = mps_tick_counter s /\
  mps_sample_counter s' = mps_sample_counter s.
Proof.
  intros Hp. cbv zeta. unfold lmp_set_pos, lmp_get_length.
  destruct (Z.ltb_spec p (mps_length s)) as [Hlt | Hge].
  - split.
    + intros _. split; [reflexivity|]. split; [reflexivity|].
      intros chan. rewrite lmp_tick_frame_cell by (cbn; lia). reflexivity.
    + split; [intros H; lia|]. repeat split; reflexivity.
  - split; [intros H; lia|]. repeat split; reflexivity.
Qed.

Lemma lmp_set_pos_seeks_witness :
  let s := fst (lmp_init mps_blank two_position_blob) in
  0 <= 1 /\
  let s' := lmp_set_pos s 1 in
  (1 < lmp_get_length s ->
   mps_pos s' = 1 /\ mps_pos_pattern s' = 0 /\
   forall chan, lmp_tick_frame (set_tick_counter (mps_speed s') s')
                + 4 * Z.of_nat chan = cell_offset s 1 0 chan) /\
  (lmp_get_length s <= 1 -> s' = s) /\
  mps_cs s' = mps_cs s /\ song s' = song s /\
  mps_tick_counter s' = mps_tick_counter s /\
  mps_sample_counter s' = mps_sample_counter s.
Proof.
  cbv zeta. split; [lia|].
  apply (lmp_set_pos_seeks (fst (lmp_init mps_blank two_position_blob)) 1). lia.
Defined.

(** X24. [lmp_set_option] stores a flag as 0 or 1 whatever non-zero value is
    passed, ignores option numbers it does not know, lets the last of two
    settings of one option win, and sets different options independently;
    it never touches the cursor, the clocks, the tempo or the voices. *)
Theorem lmp_set_option_laws (s : mps_t) (o o' v v' : Z) :
  lmp_set_option s o v = lmp_set_option s o (lbool v) /\
  (o <> LMP_OPT_LOOP -> o <> LMP_OPT_SUPPORT_TEMPO -> lmp_set_option s o v = s) /\
  lmp_set_option (lmp_set_option s o v) o v' = lmp_set_option s o v' /\
  (o <> o' ->
   lmp_set_option (lmp_set_option s o v) o' v'
   = lmp_set_option (lmp_set_option s o' v') o v) /\
  mps_song_loop (lmp_set_option s LMP_OPT_LOOP v) = (if v =? 0 then 0 else 1) /\
  mps_support_tempo (lmp_set_option s LMP_OPT_SUPPORT_TEMPO v)
  = (if v =? 0 then 0 else 1) /\
  clocks (lmp_set_option s o v) = clocks s /\
  tempo_state (lmp_set_option s LMP_OPT_LOOP v) = tempo_state s /\
  mps_tempo (lmp_set_option s o v) = mps_tempo s /\
  mps_samples_per_tick (lmp_set_option s o v) = mps_samples_per_tick s /\
  mps_cs (lmp_set_option s o v) = mps_cs s.
Proof.
  assert (Hb : lbool (lbool v) = lbool v)
    by (unfold lbool; destruct (v =? 0); reflexivity).
  unfold LMP_OPT_LOOP, LMP_OPT_SUPPORT_TEMPO.
  split; [|split; [|split; [|split]]].
  - unfold lmp_set_option. destruct o as [|[q|q|]|]; try reflexivity;
      rewrite Hb; reflexivity.
  - intros H0 H1. unfold lmp_set_option.
    destruct o as [|[q|q|]|]; try reflexivity; contradiction.
  - unfold lmp_set_option. destruct o as [|[q|q|]|]; reflexivity.
  - intros Hne. unfold lmp_set_option.
    destruct o as [|[q|q|]|]; destruct o' as [|[q'|q'|]|];
      try reflexivity; contradiction.
  - repeat split; try reflexivity.
    all: unfold lmp_set_option; destruct o as [|[q|q|]|]; reflexivity.
Qed.

(** ** The instrument a voice plays *)





















Lemma vol_bounds_witness :
  mps_wf mps_blank /\
  let s0 := fst (lmp_init mps_blank two_position_blob) in
  let s := lmp_run s0 [FillBuffer 1000 LMP_MONO; SetPos 1] in
  (forall i, (i < module_instruments two_position_blob)%nat ->
     i_default_volume (mps_inst s0 !!! i) = header_volume two_position_blob i /\
     0 <= header_volume two_position_blob i <= 127) /\
  Forall (fun c => 0 <= c_vol c <= 127) (mps_cs s) /\
  ((forall i, (i < module_instruments two_position_blob)%nat ->
      header_volume two_position_blob i <= 64) ->
   Forall (fun c => 0 <= c_vol c <= 64) (mps_cs s)).
Proof.
  assert (Hwf : mps_wf mps_blank) by (split; reflexivity).
  split; [exact Hwf|].
  apply (vol_bounds mps_blank two_position_blob _ Hwf).
Defined.

(** ** Starting a note *)

Lemma chan_get_chan_set (s : mps_t) (chan : nat) (c : mpschan_t) :
  (chan < length (mps_cs s))%nat -> chan_get (chan_set chan c s) chan = c.
Proof.
  intros H. unfold chan_get, chan_set. cbn [mps_cs set_cs].
  apply list_lookup_total_insert_eq. exact H.
Qed.

(** X26. What a cell without effect does to its channel on a row tick.  With a
    period and an instrument number the module has, the voice is switched on
    at the start of the instrument's sample, with the cell's period; a
    non-zero instrument number also selects the instrument and installs its
    default volume, while number 0 keeps the channel's instrument and
    volume.  The voice repeats unless the instrument's repeat length is 2.
    Without a period, or with an instrument number the module does not
    have, only the running effect is cleared. *)
Theorem note_starts_voice (cf : Z) (chan : nat) (s : mps_t) :
  (chan < length (mps_cs s))%nat ->
  let note := host_to_LE32 (load32 (mps_mod_data s) (cf + 4 * Z.of_nat chan)) in
  let inst := note_inst note in
  let freq := note_freq note in
  let N := if mps_thirtyone s =? 0 then 15 else 31 in
  let c0 := chan_get s chan in
  let c := chan_get (lmp_tick_chan cf chan s) chan in
  note_command note = 0 ->
  (freq <> 0 -> inst <= N ->
   let k := if inst =? 0 then c_inst c0 else inst - 1 in
   let ins := mps_inst s !!! Z.to_nat k in
   c_on c = 1 /\ c_pos c = 0 /\ c_inst c = k /\
   c_vol c = (if inst =? 0 then c_vol c0 else i_default_volume ins) /\
   c_sample c = i_sample ins /\
   c_len c = u32 (Z.shiftl (i_len ins) 12) /\
   c_looping c = (if i_repeat_len ins =? 2 then 0 else 1) /\
   c_pitch c = freq /\ c_phaseinc c = lmp_pi_from_pitch freq /\
   c_effect c = 0xff) /\
  (freq = 0 \/ N < inst -> c = set_c_effect 0xff c0).
Proof.
  intros Hc. cbv zeta. intros Hcmd. unfold lmp_tick_chan. cbv zeta.
  rewrite Hcmd. cbn [lmp_process_command].
  change (mps_thirtyone (chan_upd chan (set_c_effect 255) s))
    with (mps_thirtyone s).
  set (note := host_to_LE32 (load32 (mps_mod_data s) (cf + 4 * Z.of_nat chan))).
  assert (Hupd : chan_get (chan_upd chan (set_c_effect 255) s) chan
                 = set_c_effect 255 (chan_get s chan)).
  { rewrite chan_get_chan_upd by exact Hc.
    destruct (decide (chan = chan)); [reflexivity | contradiction]. }
  split.
  - intros Hf Hi.
    replace (negb (note_freq note =? 0)) with true
      by (destruct (Z.eqb_spec (note_freq note) 0); [contradiction | reflexivity]).
    replace (note_inst note <=? (if mps_thirtyone s =? 0 then 15 else 31))
      with true by lia.
    cbn [andb]. unfold lmp_tick_play. cbv zeta.
    rewrite chan_get_chan_set
      by (unfold chan_upd, chan_set; cbn [mps_cs set_cs];
          rewrite length_insert; exact Hc).
    rewrite Hupd.
    change (mps_inst (chan_upd chan (set_c_effect 255) s)) with (mps_inst s).
    change SAMP_FP_SPLIT with 12. change (1 * 2) with 2.
    destruct (Z.eqb_spec (note_inst note) 0) as [E | E];
      cbn [c_inst set_c_inst set_c_vol set_c_on set_c_effect];
      destruct (i_repeat_len _ =? 2); cbn; repeat split; reflexivity.
  - intros Hno.
    replace (negb (note_freq note =? 0) &&
             (note_inst note <=? (if mps_thirtyone s =? 0 then 15 else 31)))
      with false.
    + exact Hupd.
    + destruct Hno as [-> | Hgt]; [reflexivity|].
      replace (note_inst note <=? (if mps_thirtyone s =? 0 then 15 else 31))
        with false by lia.
      symmetry. apply andb_false_r.
Qed.

Lemma note_starts_voice_witness :
  let s := fst (lmp_init mps_blank one_note_blob) in
  (0 < length (mps_cs s))%nat /\
  let note := host_to_LE32 (load32 (mps_mod_data s) (0x258 + 4 * Z.of_nat 0)) in
  let inst := note_inst note in
  let freq := note_freq note in
  let N := if mps_thirtyone s =? 0 then 15 else 31 in
  let c0 := chan_get s 0 in
  let c := chan_get (lmp_tick_chan 0x258 0 s) 0 in
  note_command note = 0 /\
  (freq <> 0 -> inst <= N ->
   let k := if inst =? 0 then c_inst c0 else inst - 1 in
   let ins := mps_inst s !!! Z.to_nat k in
   c_on c = 1 /\ c_pos c = 0 /\ c_inst c = k /\
   c_vol c = (if inst =? 0 then c_vol c0 else i_default_volume ins) /\
   c_sample c = i_sample ins /\
   c_len c = u32 (Z.shiftl (i_len ins) 12) /\
   c_looping c = (if i_repeat_len ins =? 2 then 0 else 1) /\
   c_pitch c = freq /\ c_phaseinc c = lmp_pi_from_pitch freq /\
   c_effect c = 0xff) /\
  (freq = 0 \/ N < inst -> c = set_c_effect 0xff c0).
Proof.
  cbv zeta. split; [vm_compute; lia|]. split; [vm_compute; reflexivity|].
  apply (note_starts_voice 0x258 0 (fst (lmp_init mps_blank one_note_blob)));
    [vm_compute; lia | vm_compute; reflexivity].
Defined.

(** ** Speed and tempo *)

(** X27. Effect 15 with a parameter from 1 to 30 sets the speed and restarts the
    row's tick count with it; with a parameter of 32 or more, and tempo
    changes enabled, it sets the tempo and makes a tick last 110250 / tempo
    output frames (2.5 seconds of output per [tempo] ticks), between 432
    and 3445; with parameter 0, or from 32 with tempo changes disabled, it
    does nothing. *)
Theorem speed_tempo_effect (s : mps_t) (chan : nat) (val : Z) :
  0 <= val < 256 ->
  let s' := lmp_process_command s chan 15 val in
  (1 <= val <= 30 ->
   mps_speed s' = val /\ mps_tick_counter s' = val /\
   tempo_state s' = tempo_state s) /\
  (32 <= val -> mps_support_tempo s <> 0 ->
   mps_tempo s' = val /\
   mps_samples_per_tick s' = 110250 / val /\
   432 <= mps_samples_per_tick s' <= 3445 /\
   mps_speed s' = mps_speed s /\ mps_tick_counter s' = mps_tick_counter s) /\
  (val = 0 \/ (32 <= val /\ mps_support_tempo s = 0) -> s' = s).
Proof.
  intros Hval. cbv zeta. split; [|split].
  - intros H. cbn [lmp_process_command]. cbv zeta.
    replace (val >? 0) with true by lia. replace (val <? 31) with true by lia.
    replace (val >=? 32) with false by lia. cbn. repeat split; reflexivity.
  - intros H Ht.
    destruct (lmp_process_command_tempo s chan val H Ht) as (E1 & E2 & E3).
    cbv zeta in E1, E2, E3. split; [exact E1|].
    assert (E : lmp_samps_from_tempo val = 110250 / val).
    { unfold lmp_samps_from_tempo, LMP_SAMPLERATE.
      change (125 * 44100 / 50) with 110250.
      assert (432 <= 110250 / val) by (apply Z.div_le_lower_bound; lia).
      assert (110250 / val < 3446) by (apply Z.div_lt_upper_bound; lia).
      apply u32_small. lia. }
    rewrite E2, E.
    assert (432 <= 110250 / val) by (apply Z.div_le_lower_bound; lia).
    assert (110250 / val < 3446) by (apply Z.div_lt_upper_bound; lia).
    split; [reflexivity|]. split; [lia|]. split; [exact E3|].
    cbn [lmp_process_command]. cbv zeta.
    replace (val <? 31) with false by lia. rewrite andb_false_r.
    replace (val >=? 32) with true by lia.
    destruct (negb (mps_support_tempo s =? 0)); reflexivity.
  - intros [-> | [H Ht]]; [reflexivity|].
    cbn [lmp_process_command]. cbv zeta.
    replace (val <? 31) with false by lia. rewrite andb_false_r.
    replace (val >=? 32) with true by lia. rewrite Ht. reflexivity.
Qed.

Lemma speed_tempo_effect_witness :
  0 <= 0x7d < 256 /\
  let s := fst (lmp_init mps_blank zero_blob) in
  let s' := lmp_process_command s 0 15 0x7d in
  (1 <= 0x7d <= 30 ->
   mps_speed s' = 0x7d /\ mps_tick_counter s' = 0x7d /\
   tempo_state s' = tempo_state s) /\
  (32 <= 0x7d -> mps_support_tempo s <> 0 ->
   mps_tempo s' = 0x7d /\
   mps_samples_per_tick s' = 110250 / 0x7d /\
   432 <= mps_samples_per_tick s' <= 3445 /\
   mps_speed s' = mps_speed s /\ mps_tick_counter s' = mps_tick_counter s) /\
  (0x7d = 0 \/ (32 <= 0x7d /\ mps_support_tempo s = 0) -> s' = s).
Proof.
  split; [lia|].
  apply (speed_tempo_effect (fst (lmp_init mps_blank zero_blob)) 0 0x7d). lia.
Defined.
